(** * financa: the dashboard aggregation, the transaction filter and the
      default-category seeding, embedded from the JavaScript sources

    Sources embedded here:
    - [src/screens/DashboardScreen.js]   balance, [processMonthlyData],
      [calculateHighlights];
    - [src/screens/TransactionsScreen.js] [filterTransactions];
    - [src/contexts/AuthContext.js]      [createDefaultCategories], [signUp],
      [signIn], [signOut], [createCategoriesForExistingUser], [getSession] and
      the handler of [onAuthStateChange];
    - [src/screens/ExpensesScreen.js], [src/screens/IncomesScreen.js]
      [handleAmountChange], [loadCategories], [handleSubmit];
    - [src/screens/RegisterScreen.js], LoginScreen  [handleRegister],
      [handleLogin].

    Conventions of the embedding.
    - The store holds an amount as a decimal with two places; a row keeps it
      as the integer count of its hundredths ([Z]).  The client reads it as a
      JavaScript number, an IEEE 754 binary64 value ([asNumber]), and [+] and
      [-] on numbers are the binary64 operations of Rocq's primitive floats,
      rounding to nearest, ties to even.
    - A [Date] object is its time value: milliseconds since
      1970-01-01T00:00:00Z ([Z]).  The device's zone is a fixed offset
      [LocalTZA] in milliseconds (no daylight-saving change).
    - A plain object used as a dictionary is the list of its own properties in
      creation order; where the source reads a key that may be inherited from
      [Object.prototype] the lookup follows the prototype too. *)

From Stdlib Require Import ZArith List String Ascii Bool Lia Permutation DecimalString.
From Stdlib Require Floats.
Import ListNotations.
Local Open Scope string_scope.
Local Open Scope Z_scope.

(** ** Calendar dates and time values *)

Module Calendar.

(** A date as the store returns it, the text [YYYY-MM-DD]. *)
Record CivilDate : Type := mkDate { year : Z; month : Z; day : Z }.

Definition msPerDay : Z := 86400000.

Definition isLeap (y : Z) : bool :=
  ((y mod 4 =? 0) && negb (y mod 100 =? 0)) || (y mod 400 =? 0).

Definition daysInMonth (y m : Z) : Z :=
  if m =? 2 then (if isLeap y then 29 else 28)
  else if (m =? 4) || (m =? 6) || (m =? 9) || (m =? 11) then 30
  else 31.

Definition validDate (d : CivilDate) : bool :=
  (1 <=? month d) && (month d <=? 12) &&
  (1 <=? day d) && (day d <=? daysInMonth (year d) (month d)).

(** Day number of a proleptic Gregorian date, 0 at 1970-01-01 (what ECMAScript
    calls [MakeDay]); years are counted from March inside 400-year eras:
    [yoe] is the year of the era, [mp] the month from March, [doe] the day of
    the era. *)
Definition doe_of (yoe mp d : Z) : Z :=
  yoe * 365 + yoe / 4 - yoe / 100 + ((153 * mp + 2) / 5 + d - 1).

Definition days_from_civil (d : CivilDate) : Z :=
  let y := if month d <=? 2 then year d - 1 else year d in
  let era := y / 400 in
  let yoe := y - era * 400 in
  let mp := if month d <=? 2 then month d + 9 else month d - 3 in
  era * 146097 + doe_of yoe mp (day d) - 719468.

(** Year of the era, day of that year, month from March and day of the month
    of a day of the era. *)
Definition yoe_of (doe : Z) : Z :=
  (doe - doe / 1460 + doe / 36524 - doe / 146096) / 365.
Definition doy_of (doe : Z) : Z :=
  let yoe := yoe_of doe in doe - (365 * yoe + yoe / 4 - yoe / 100).
Definition mp_of (doe : Z) : Z := (5 * doy_of doe + 2) / 153.
Definition dom_of (doe : Z) : Z := doy_of doe - (153 * mp_of doe + 2) / 5 + 1.

(** The date of a day number (ECMAScript's [YearFromTime], [MonthFromTime] and
    [DateFromTime] of that day). *)
Definition civil_from_days (z : Z) : CivilDate :=
  let era := (z + 719468) / 146097 in
  let doe := z + 719468 - era * 146097 in
  let mp := mp_of doe in
  let m := if mp <? 10 then mp + 3 else mp - 9 in
  mkDate (if m <=? 2 then yoe_of doe + era * 400 + 1 else yoe_of doe + era * 400)
         m (dom_of doe).

(** [new Date(s)] for a date-only text [s]: midnight UTC of that day. *)
Definition Date_parse (d : CivilDate) : Z := days_from_civil d * msPerDay.

(** [Day(LocalTime(t))]: the local calendar day a time value falls on. *)
Definition localDay (LocalTZA t : Z) : Z := (t + LocalTZA) / msPerDay.

Definition localDate (LocalTZA t : Z) : CivilDate :=
  civil_from_days (localDay LocalTZA t).

(** [d.getFullYear()] and [d.getMonth()] (January is 0). *)
Definition getFullYear (LocalTZA t : Z) : Z := year (localDate LocalTZA t).
Definition getMonth (LocalTZA t : Z) : Z := month (localDate LocalTZA t) - 1.

End Calendar.

Import Calendar.

(** ** Rows of the store *)

Module Store.

(** A row of the table [transactions].  [type] is the text column the two
    entry screens fill with ['expense'] and ['income']; [amount] is in
    hundredths, and [asNumber] of it is the number the client reads; [None]
    is a column the store returns as [null]. *)
Record Transaction : Type := mkTransaction {
  id : string;
  user_id : string;
  type : string;
  amount : Z;
  description : option string;
  category : option string;
  date : CivilDate
}.

End Store.

Import Store.

(** ** Numbers *)

Module JSNumber.

(** A JavaScript number: a binary64 value.  [x + y] is [PrimFloat.add x y]
    and [x - y] is [PrimFloat.sub x y]. *)
Definition double : Type := PrimFloat.float.

(** The binary64 value nearest to an integer. *)
Definition ofInteger (m : Z) : double :=
  FloatOps.SF2Prim (SpecFloat.binary_normalize FloatOps.prec FloatOps.emax m 0 false).

(** The number the client reads for an amount of [a] hundredths: the
    quotient of [a] by 100, rounded once.  Below [2^53] the two integers are
    binary64 values, so this is the number nearest to the decimal, the one
    [JSON.parse] gives for its text. *)
Definition asNumber (a : Z) : double :=
  PrimFloat.div (ofInteger a) (ofInteger 100).

(** [x === y] on numbers. *)
Definition strictEquals (x y : double) : bool := PrimFloat.eqb x y.

End JSNumber.

Import JSNumber.

(** ** Strings *)

Module JSString.

(** [x || ''] for a text that may be [null]. *)
Definition orEmpty (x : option string) : string :=
  match x with Some s => s | None => "" end.

(** A string in a condition: the empty string is falsy. *)
Definition truthy (s : string) : bool := negb (String.eqb s "").

(** [hay.includes(needle)]. *)
Fixpoint includes (hay needle : string) : bool :=
  String.prefix needle hay ||
  match hay with
  | EmptyString => false
  | String _ rest => includes rest needle
  end.

(** [toLowerCase] on the letters A-Z.  The engine also folds letters outside
    ASCII; the filter below takes the folding as a parameter, and this is the
    instance used in examples. *)
Definition asciiLower (c : ascii) : ascii :=
  let n := N_of_ascii c in
  if ((65 <=? n) && (n <=? 90))%N then ascii_of_N (n + 32) else c.

Fixpoint toLowerCaseASCII (s : string) : string :=
  match s with
  | EmptyString => EmptyString
  | String c rest => String (asciiLower c) (toLowerCaseASCII rest)
  end.

End JSString.

Import JSString.

(** ** Objects used as dictionaries *)

Module JSObject.

Section OwnProperties.
Context {K V : Type} (eqb : K -> K -> bool).

(** Own properties, oldest first. *)
Definition object : Type := list (K * V).

Fixpoint get (o : object) (k : K) : option V :=
  match o with
  | [] => None
  | (k', v) :: rest => if eqb k' k then Some v else get rest k
  end.

(** [o[k] = v]: an existing property keeps its place, a new one goes last. *)
Fixpoint set (o : object) (k : K) (v : V) : object :=
  match o with
  | [] => [(k, v)]
  | (k', v') :: rest =>
      if eqb k' k then (k', v) :: rest else (k', v') :: set rest k v
  end.

Definition ownKeys (o : object) : list K := map fst o.
End OwnProperties.

(** *** Values a counter property can hold *)

Inductive number : Type := Num (z : Z) | NaN.

(** [VObject prim] is an object inherited from [Object.prototype], known by
    the text [ToPrimitive] gives for it. *)
Inductive value : Type :=
| VUndefined
| VNumber (n : number)
| VString (s : string)
| VObject (prim : string).

(** The members every plain object inherits, with the text of each.  A native
    function prints as [function name() { [native code] }]; what an engine
    writes between the parentheses is its own, and no comparison below reads
    that far, two such texts differing inside the name.  The accessor
    [__proto__] reads as [Object.prototype], which prints as
    [[object Object]]. *)
Definition nativeFunction (name : string) : value :=
  VObject ("function " ++ name ++ "() { [native code] }").

Definition Object_prototype : list (string * value) :=
  [ ("constructor", nativeFunction "Object");
    ("__defineGetter__", nativeFunction "__defineGetter__");
    ("__defineSetter__", nativeFunction "__defineSetter__");
    ("hasOwnProperty", nativeFunction "hasOwnProperty");
    ("__lookupGetter__", nativeFunction "__lookupGetter__");
    ("__lookupSetter__", nativeFunction "__lookupSetter__");
    ("isPrototypeOf", nativeFunction "isPrototypeOf");
    ("propertyIsEnumerable", nativeFunction "propertyIsEnumerable");
    ("toString", nativeFunction "toString");
    ("valueOf", nativeFunction "valueOf");
    ("__proto__", VObject "[object Object]");
    ("toLocaleString", nativeFunction "toLocaleString") ].

(** [o[k]] on an object literal: own property, else inherited, else
    [undefined]. *)
Definition Get (o : list (string * value)) (k : string) : value :=
  match get String.eqb o k with
  | Some v => v
  | None =>
      match get String.eqb Object_prototype k with
      | Some v => v
      | None => VUndefined
      end
  end.

(** [o[k] = v] for a primitive [v]: the setter of [__proto__] ignores a value
    that is not an object; any other key becomes or stays an own property. *)
Definition Set_ (o : list (string * value)) (k : string) (v : value)
  : list (string * value) :=
  if String.eqb k "__proto__" then o else set String.eqb o k v.

Definition ToBoolean (v : value) : bool :=
  match v with
  | VUndefined => false
  | VNumber (Num z) => negb (z =? 0)
  | VNumber NaN => false
  | VString s => negb (String.eqb s "")
  | VObject _ => true
  end.

(** [x || y]. *)
Definition or (x y : value) : value := if ToBoolean x then x else y.

Definition isDigit (c : ascii) : bool :=
  let n := N_of_ascii c in ((48 <=? n) && (n <=? 57))%N.

Fixpoint digitsValue (acc : N) (s : string) : option N :=
  match s with
  | EmptyString => Some acc
  | String c rest =>
      if isDigit c then digitsValue (acc * 10 + (N_of_ascii c - 48)) rest
      else None
  end.

(** [ToNumber] of a string, for the strings that are a run of decimal digits;
    every other string met here is the text of an inherited member followed
    by ones, which is no numeric literal: [NaN]. *)
Definition StringToNumber (s : string) : number :=
  match s with
  | EmptyString => Num 0
  | _ => match digitsValue 0 s with
         | Some n => Num (Z.of_N n)
         | None => NaN
         end
  end.

Definition ToNumber (v : value) : number :=
  match v with
  | VUndefined => NaN
  | VNumber n => n
  | VString s | VObject s => StringToNumber s
  end.

Definition ToPrimitive (v : value) : value :=
  match v with VObject s => VString s | _ => v end.

Definition decimal (z : Z) : string :=
  match z with
  | 0 => "0"
  | Zpos p => NilEmpty.string_of_uint (Pos.to_uint p)
  | Zneg p => "-" ++ NilEmpty.string_of_uint (Pos.to_uint p)
  end.

Definition ToString (v : value) : string :=
  match v with
  | VUndefined => "undefined"
  | VNumber (Num z) => decimal z
  | VNumber NaN => "NaN"
  | VString s | VObject s => s
  end.

(** [x + y]: concatenation when either side is a string after
    [ToPrimitive], addition of numbers otherwise. *)
Definition add (x y : value) : value :=
  match ToPrimitive x, ToPrimitive y with
  | VString a, b => VString (a ++ ToString b)
  | a, VString b => VString (ToString a ++ b)
  | a, b =>
      match ToNumber a, ToNumber b with
      | Num m, Num n => VNumber (Num (m + n))
      | _, _ => VNumber NaN
      end
  end.

(** [x > y]: two strings compare as strings, anything else as numbers, and a
    comparison with [NaN] is false. *)
Definition gt (x y : value) : bool :=
  match ToPrimitive x, ToPrimitive y with
  | VString a, VString b => String.ltb b a
  | a, b =>
      match ToNumber a, ToNumber b with
      | Num m, Num n => n <? m
      | _, _ => false
      end
  end.

(** *** Enumeration order of [Object.keys] *)

(** An array index is the decimal text, without leading zero, of an integer
    below [2^32 - 1]. *)
Definition arrayIndex (k : string) : option N :=
  match k with
  | EmptyString => None
  | String c rest =>
      if String.eqb k "0" then Some 0%N
      else if Ascii.eqb c "0" then None
      else match digitsValue 0 k with
           | Some n => if (n <? 4294967295)%N then Some n else None
           | None => None
           end
  end.

Fixpoint insertIndex (e : N * string) (l : list (N * string)) : list (N * string) :=
  match l with
  | [] => [e]
  | e' :: rest =>
      if (fst e <=? fst e')%N then e :: l else e' :: insertIndex e rest
  end.

Definition isIndex (k : string) : bool :=
  match arrayIndex k with Some _ => true | None => false end.

(** Array indices in ascending order, then the other keys in creation
    order. *)
Definition orderKeys (ks : list string) : list string :=
  let indexed :=
    fold_right
      (fun k acc => match arrayIndex k with
                    | Some n => insertIndex (n, k) acc
                    | None => acc
                    end) [] ks in
  map snd indexed ++ filter (fun k => negb (isIndex k)) ks.

Definition keys {V : Type} (o : list (string * V)) : list string :=
  orderKeys (ownKeys o).

End JSObject.

(** ** DashboardScreen.js *)

Module Dashboard.

Import JSObject.

(** [array.reduce((sum, t) => sum + t.amount, 0)]: the amounts are added to
    the running sum one by one, from the left, each addition rounded. *)
Definition sumAmounts (ts : list Transaction) : double :=
  fold_left (fun sum t => PrimFloat.add sum (asNumber (amount t))) ts PrimFloat.zero.

Definition totalIncome (transactions : list Transaction) : double :=
  sumAmounts (filter (fun t => String.eqb (type t) "income") transactions).

Definition totalExpenses (transactions : list Transaction) : double :=
  sumAmounts (filter (fun t => String.eqb (type t) "expense") transactions).

(** The value [loadDashboardData] hands to [setBalance]. *)
Definition computeBalance (transactions : list Transaction) : double :=
  PrimFloat.sub (totalIncome transactions) (totalExpenses transactions).

(** *** processMonthlyData *)

(** The key [`${date.getFullYear()}-${date.getMonth() + 1}`], kept as the pair
    of its two numbers.  A text of this form is no array index and no name of
    an inherited member, so [months] is read and listed through its own
    properties alone. *)
Definition MonthKey : Type := Z * Z.

Definition monthKey_eqb (a b : MonthKey) : bool :=
  (fst a =? fst b) && (snd a =? snd b).

Module Totals.
(** A value of the temporary map [months]. *)
Record t : Type := mk { income : double; expenses : double }.
End Totals.

Module Point.
(** An element of the array handed to the chart. *)
Record t : Type := mk { month : MonthKey; income : double; expenses : double }.
End Point.

Section MonthlyData.
(** Offset of the device's zone from UTC, in milliseconds. *)
Variable LocalTZA : Z.

Definition monthKey (transaction : Transaction) : MonthKey :=
  let date := Date_parse (Store.date transaction) in
  (getFullYear LocalTZA date, getMonth LocalTZA date + 1).

(** The callback of [transactions.forEach]; [+=] is one addition of
    numbers. *)
Definition addTransaction (months : list (MonthKey * Totals.t))
    (transaction : Transaction) : list (MonthKey * Totals.t) :=
  let key := monthKey transaction in
  let months :=
    match get monthKey_eqb months key with
    | None => set monthKey_eqb months key (Totals.mk PrimFloat.zero PrimFloat.zero)
    | Some _ => months
    end in
  match get monthKey_eqb months key with
  | Some b =>
      if String.eqb (type transaction) "income"
      then set monthKey_eqb months key
             (Totals.mk (PrimFloat.add (Totals.income b) (asNumber (amount transaction)))
                        (Totals.expenses b))
      else set monthKey_eqb months key
             (Totals.mk (Totals.income b)
                        (PrimFloat.add (Totals.expenses b) (asNumber (amount transaction))))
  | None => months
  end.

Definition monthsOf (transactions : list Transaction)
  : list (MonthKey * Totals.t) :=
  fold_left addTransaction transactions [].

(** [Object.keys(months).map(key => ({ month: key, ... }))]; a month key is
    never an array index, so the keys come in creation order. *)
Definition processMonthlyData (transactions : list Transaction)
  : list Point.t :=
  let months := monthsOf transactions in
  map (fun key =>
         match get monthKey_eqb months key with
         | Some b => Point.mk key (Totals.income b) (Totals.expenses b)
         | None => Point.mk key PrimFloat.zero PrimFloat.zero
         end)
      (ownKeys months).
End MonthlyData.

(** *** calculateHighlights *)

Record Highlights : Type := mkHighlights {
  highestExpense : option Transaction;
  mostUsedCategory : string
}.

(** The property key a category is turned into ([null] reads ["null"]). *)
Definition categoryKey (c : option string) : string :=
  match c with Some s => s | None => "null" end.

(** The callback of the second [forEach]:
    [categoryCount[t.category] = (categoryCount[t.category] || 0) + 1]. *)
Definition countCategory (categoryCount : list (string * value)) (t : Transaction)
  : list (string * value) :=
  let k := categoryKey (category t) in
  Set_ categoryCount k
       (add (or (Get categoryCount k) (VNumber (Num 0))) (VNumber (Num 1))).

Definition categoryCountOf (transactions : list Transaction)
  : list (string * value) :=
  fold_left countCategory transactions [].

Definition calculateHighlights (transactions : list Transaction) : Highlights :=
  let expenses := filter (fun t => String.eqb (type t) "expense") transactions in
  let highestExpense :=
    match expenses with
    | [] => None
    | first :: _ =>
        Some (fold_left (fun max t => if amount max <? amount t then t else max)
                        expenses first)
    end in
  let categoryCount := categoryCountOf transactions in
  let mostUsedCategory :=
    match keys categoryCount with
    | [] => "Nenhuma"
    | first :: rest =>
        fold_left (fun a b =>
                     if gt (Get categoryCount a) (Get categoryCount b) then a else b)
                  rest first
    end in
  mkHighlights highestExpense mostUsedCategory.

(** *** loadDashboardData *)

Inductive QueryResult : Type :=
| QueryData (transactions : list Transaction)
| QueryError (message : string).

Inductive Effect : Type :=
| Alert (title message : string)
| ConsoleError (message : string).

Record State : Type := mkState {
  balance : double;
  chartData : list Point.t;
  highlights : option Highlights
}.

Definition initialState : State := mkState PrimFloat.zero [] None.

(** One run of [loadDashboardData] on the answer of the store: the new state
    and what was shown or logged.  An error of the query is thrown to the
    [catch], which leaves the state as it was. *)
Definition loadDashboardData (LocalTZA : Z) (answer : QueryResult) (s : State)
  : State * list Effect :=
  match answer with
  | QueryError message =>
      (s, [Alert "Erro" "Erro ao carregar dados do dashboard"; ConsoleError message])
  | QueryData transactions =>
      (mkState (computeBalance transactions)
               (processMonthlyData LocalTZA transactions)
               (Some (calculateHighlights transactions)), [])
  end.

End Dashboard.

(** ** TransactionsScreen.js *)

Module Transactions.

(** The filter criteria held in the screen's state.  The two bounds are
    [Date] objects: what [new Date()] or the date picker produced, time of day
    included. *)
Record Filters : Type := mkFilters {
  filterType : string;
  filterCategory : string;
  startDate : Z;
  endDate : Z;
  searchText : string
}.

(** The state the screen starts in at time [now]: every type, no text, and the
    range from [new Date(year, month, 1)], local midnight of the first of the
    current month, to [new Date()]. *)
Definition initialFilters (LocalTZA now : Z) : Filters :=
  let firstOfMonth :=
    mkDate (getFullYear LocalTZA now) (getMonth LocalTZA now + 1) 1 in
  mkFilters "all" "" (days_from_civil firstOfMonth * msPerDay - LocalTZA) now "".

(** The setters of the criteria. *)
Definition setFilterType (k : string) (f : Filters) : Filters :=
  mkFilters k (filterCategory f) (startDate f) (endDate f) (searchText f).
Definition setFilterCategory (c : string) (f : Filters) : Filters :=
  mkFilters (filterType f) c (startDate f) (endDate f) (searchText f).
Definition setStartDate (d : Z) (f : Filters) : Filters :=
  mkFilters (filterType f) (filterCategory f) d (endDate f) (searchText f).
Definition setEndDate (d : Z) (f : Filters) : Filters :=
  mkFilters (filterType f) (filterCategory f) (startDate f) d (searchText f).
Definition setSearchText (q : string) (f : Filters) : Filters :=
  mkFilters (filterType f) (filterCategory f) (startDate f) (endDate f) q.

(** The day a card of the list shows,
    [new Date(item.date).toLocaleDateString('pt-BR')]. *)
Definition shownDate (LocalTZA : Z) (item : Transaction) : CivilDate :=
  localDate LocalTZA (Date_parse (date item)).

Section Filter.
(** [String.prototype.toLowerCase]. *)
Variable toLowerCase : string -> string.

Definition typeMatches (f : Filters) (t : Transaction) : bool :=
  String.eqb (type t) (filterType f).

Definition categoryMatches (f : Filters) (t : Transaction) : bool :=
  includes (toLowerCase (orEmpty (category t))) (toLowerCase (filterCategory f)).

(** [transactionDate >= startDate && transactionDate <= endDate], two
    comparisons of time values. *)
Definition dateMatches (f : Filters) (t : Transaction) : bool :=
  let transactionDate := Date_parse (date t) in
  (startDate f <=? transactionDate) && (transactionDate <=? endDate f).

Definition searchMatches (f : Filters) (t : Transaction) : bool :=
  let q := toLowerCase (searchText f) in
  includes (toLowerCase (orEmpty (description t))) q
  || includes (toLowerCase (orEmpty (category t))) q.

(** The list [filterTransactions] hands to [setFilteredTransactions]. *)
Definition filterTransactions (transactions : list Transaction) (f : Filters)
  : list Transaction :=
  let filtered := transactions in
  let filtered :=
    if negb (String.eqb (filterType f) "all")
    then filter (typeMatches f) filtered else filtered in
  let filtered :=
    if truthy (filterCategory f)
    then filter (categoryMatches f) filtered else filtered in
  let filtered := filter (dateMatches f) filtered in
  let filtered :=
    if truthy (searchText f)
    then filter (searchMatches f) filtered else filtered in
  filtered.
End Filter.

End Transactions.

(** ** AuthContext.js *)

Module Auth.

(** A row of the table [categories]. *)
Record Category : Type := mkCategory {
  user_id : string;
  name : string;
  type : string
}.

(** The account object of the authentication service; [created_at] is read
    through [new Date], so it is kept as a time value. *)
Record User : Type := mkUser {
  id : string;
  created_at : Z
}.

Definition defaultCategories : list (string * string) :=
  [ ("Alimentação", "expense");
    ("Transporte", "expense");
    ("Moradia", "expense");
    ("Saúde", "expense");
    ("Educação", "expense");
    ("Lazer", "expense");
    ("Compras", "expense");
    ("Outros", "expense");
    ("Salário", "income");
    ("Freelance", "income");
    ("Investimentos", "income");
    ("Presentes", "income");
    ("Outros", "income") ].

Inductive LogLine : Type :=
| Log (message : string)
| LogError (message : string) (error : string).

(** What the provider, the store and the console hold: the table of
    categories, the lines logged, and the provider's [user] and [loading]. *)
Record World : Type := mkWorld {
  categories : list Category;
  console : list LogLine;
  user : option User;
  loading : bool
}.

(** How an awaited call ends: with a value, or with an exception. *)
Inductive Completion (A : Type) : Type :=
| Returns (a : A)
| Throws (error : string).
Arguments Returns {A} a.
Arguments Throws {A} error.

(** A computation over the world; [bind] runs the second part only when the
    first returned. *)
Definition M (A : Type) : Type := World -> Completion A * World.

Definition ret {A} (a : A) : M A := fun w => (Returns a, w).
Definition throw {A} (e : string) : M A := fun w => (Throws e, w).
Definition bind {A B} (m : M A) (k : A -> M B) : M B :=
  fun w => match m w with
           | (Returns a, w') => k a w'
           | (Throws e, w') => (Throws e, w')
           end.
Definition tryCatch {A} (body : M A) (handler : string -> M A) : M A :=
  fun w => match body w with
           | (Returns a, w') => (Returns a, w')
           | (Throws e, w') => handler e w'
           end.
(** [try { body } finally { after }], [after] having no [return]. *)
Definition finally {A} (body : M A) (after : M unit) : M A :=
  fun w => match body w with
           | (c, w') => match after w' with
                        | (Returns _, w'') => (c, w'')
                        | (Throws e, w'') => (Throws e, w'')
                        end
           end.

Notation "x <- m ;; k" := (bind m (fun x => k))
  (at level 61, m at next level, right associativity).
Notation "m ;;; k" := (bind m (fun _ => k))
  (at level 61, right associativity).

Definition consoleLog (message : string) : M unit :=
  fun w => (Returns tt,
            mkWorld (categories w) (console w ++ [Log message]) (user w) (loading w)).
Definition consoleError (message error : string) : M unit :=
  fun w => (Returns tt,
            mkWorld (categories w) (console w ++ [LogError message error])
                    (user w) (loading w)).
Definition setUser (u : option User) : M unit :=
  fun w => (Returns tt, mkWorld (categories w) (console w) u (loading w)).
Definition setLoading (b : bool) : M unit :=
  fun w => (Returns tt, mkWorld (categories w) (console w) (user w) b).

(** What the store does with one batched insert: it takes the rows, answers
    with an error, or the request itself fails. *)
Inductive InsertOutcome : Type :=
| Inserted
| InsertError (error : string)
| InsertThrows (error : string).

(** [supabase.from('categories').insert(rows)], resolved to its [error]
    field. *)
Definition insertCategories (outcome : InsertOutcome) (rows : list Category)
  : M (option string) :=
  fun w => match outcome with
           | Inserted =>
               (Returns None,
                mkWorld (categories w ++ rows) (console w) (user w) (loading w))
           | InsertError e => (Returns (Some e), w)
           | InsertThrows e => (Throws e, w)
           end.

(** The value a call evaluates to for its caller. *)
Inductive Result : Type :=
| Undefined
| Reported (error : string).

(** [createDefaultCategories(userId)]; no path of it has a [return]
    statement. *)
Definition createDefaultCategories (outcome : InsertOutcome) (userId : string)
  : M Result :=
  tryCatch
    (consoleLog ("Criando categorias padrão para usuário: " ++ userId) ;;;
     error <- insertCategories outcome
                (map (fun category => mkCategory userId (fst category) (snd category))
                     defaultCategories) ;;
     match error with
     | Some e => consoleError "Erro ao criar categorias padrão:" e
     | None => consoleLog "Categorias padrão criadas com sucesso!"
     end ;;;
     ret Undefined)
    (fun error =>
       consoleError "Erro na criação de categorias padrão:" error ;;;
       ret Undefined).

(** The handler given to [onAuthStateChange], run at time [now]. *)
Definition onAuthStateChange (now : Z) (seeding : InsertOutcome)
    (event : string) (session : option User) : M unit :=
  consoleLog ("Evento de auth: " ++ event) ;;;
  match session with
  | Some sessionUser =>
      if String.eqb event "SIGNED_IN" then
        let userCreatedTime := created_at sessionUser in
        (* diffMinutes < 5, with diffMinutes = (now - userCreatedTime) / (1000 * 60) *)
        if now - userCreatedTime <? 5 * (1000 * 60) then
          consoleLog "Novo usuário detectado, criando categorias padrão..." ;;;
          createDefaultCategories seeding (id sessionUser) ;;;
          ret tt
        else ret tt
      else ret tt
  | None => ret tt
  end ;;;
  setUser session ;;;
  setLoading false.

(** [{ data, error }]: the answer of [supabase.auth.signUp] and the value
    [signUp] returns.  [data] is [None] for [null]; [data_user] is
    [data.user]. *)
Record Data : Type := mkData { data_user : option User }.

Record Response : Type := mkResponse {
  data : option Data;
  error : option string
}.

Inductive AuthOutcome : Type :=
| Answered (r : Response)
| AuthThrows (error : string).

Definition authSignUp (outcome : AuthOutcome) : M Response :=
  match outcome with
  | Answered r => ret r
  | AuthThrows e => throw e
  end.

Definition signUp (auth : AuthOutcome) (seeding : InsertOutcome) : M Response :=
  setLoading true ;;;
  finally
    (tryCatch
       (answer <- authSignUp auth ;;
        match data answer with
        | None => throw "TypeError: Cannot read property 'user' of null"
        | Some d =>
            match data_user d, error answer with
            | Some newUser, None =>
                consoleLog "Usuário cadastrado, criando categorias padrão..." ;;;
                createDefaultCategories seeding (id newUser) ;;;
                ret tt
            | _, _ => ret tt
            end
        end ;;;
        ret (mkResponse (data answer) (error answer)))
       (fun error =>
          consoleError "Erro no signUp:" error ;;;
          ret (mkResponse None (Some error))))
    (setLoading false).

(** [signIn] and [signOut]: the answer of the service, or [data: null] with
    the exception as [error]. *)
Definition authSignIn (outcome : AuthOutcome) : M Response :=
  match outcome with
  | Answered r => ret r
  | AuthThrows e => throw e
  end.

Definition signIn (auth : AuthOutcome) : M Response :=
  setLoading true ;;;
  finally
    (tryCatch
       (answer <- authSignIn auth ;;
        ret (mkResponse (data answer) (error answer)))
       (fun error =>
          consoleError "Erro no signIn:" error ;;;
          ret (mkResponse None (Some error))))
    (setLoading false).

(** The answer of [supabase.auth.signOut]: its [error] field, or an
    exception. *)
Inductive SignOutOutcome : Type :=
| SignedOut (error : option string)
| SignOutThrows (error : string).

Definition authSignOut (outcome : SignOutOutcome) : M (option string) :=
  match outcome with
  | SignedOut e => ret e
  | SignOutThrows e => throw e
  end.

(** [signOut] returns [{ error }]; the value here is that field. *)
Definition signOut (outcome : SignOutOutcome) : M (option string) :=
  setLoading true ;;;
  finally
    (tryCatch
       (error <- authSignOut outcome ;;
        ret error)
       (fun error =>
          consoleError "Erro no signOut:" error ;;;
          ret (Some error)))
    (setLoading false).

(** [createCategoriesForExistingUser]: seeds for the provider's [user], when
    there is one. *)
Definition createCategoriesForExistingUser (seeding : InsertOutcome) : M unit :=
  fun w =>
    match user w with
    | Some u => (createDefaultCategories seeding (id u) ;;; ret tt) w
    | None => ret tt w
    end.

(** [getSession], run when the provider mounts, on the session the service
    holds. *)
Definition getSession (session : option User) : M unit :=
  setUser session ;;;
  setLoading false.

End Auth.

(** ** What a screen shows and asks for *)

Module Screen.

Inductive Effect : Type :=
| Alert (title message : string)
| Navigate (route : string)
| GoBack
| ConsoleLog (message : string)
| ConsoleError (message : string).

End Screen.

(** ** ExpensesScreen.js and IncomesScreen.js *)

Module Entry.

Import Screen.

(** [date.toISOString().split('T')[0]]: the calendar day of a time value in
    UTC. *)
Definition isoDate (t : Z) : CivilDate := civil_from_days (t / msPerDay).

(** *** handleAmountChange *)

Definition isAmountChar (c : ascii) : bool :=
  JSObject.isDigit c || Ascii.eqb c "," || Ascii.eqb c ".".

(** [text.replace(/[^0-9,.]/g, '')]. *)
Fixpoint keepAmountChars (text : string) : string :=
  match text with
  | EmptyString => EmptyString
  | String c rest =>
      if isAmountChar c then String c (keepAmountChars rest) else keepAmountChars rest
  end.

(** [s.replace(from, to)] for one-character texts: the first occurrence
    only. *)
Fixpoint replaceFirst (from to : ascii) (s : string) : string :=
  match s with
  | EmptyString => EmptyString
  | String c rest =>
      if Ascii.eqb c from then String to rest else String c (replaceFirst from to rest)
  end.

Fixpoint allDigits (s : string) : bool :=
  match s with
  | EmptyString => true
  | String c rest => JSObject.isDigit c && allDigits rest
  end.

(** The text before the first dot, and the text after it when there is
    one. *)
Fixpoint splitAtDot (s : string) : string * option string :=
  match s with
  | EmptyString => (EmptyString, None)
  | String c rest =>
      if Ascii.eqb c "." then (EmptyString, Some rest)
      else let (a, b) := splitAtDot rest in (String c a, b)
  end.

(** A decimal literal without sign and exponent: digits, digits then a dot
    then maybe digits, or a dot then digits. *)
Definition isDecimalLiteral (s : string) : bool :=
  match splitAtDot s with
  | (a, None) => allDigits a && negb (String.eqb a "")
  | (a, Some b) =>
      allDigits a && allDigits b && negb (String.eqb a "" && String.eqb b "")
  end.

(** [isNaN(s)] for a text of digits, commas and dots: [Number(s)] is 0 for the
    empty text, the value of a decimal literal, and [NaN] for anything else
    these characters can spell. *)
Definition isNaN (s : string) : bool :=
  negb (String.eqb s "" || isDecimalLiteral s).

(** The new value of [amount] after the field reports [text]. *)
Definition handleAmountChange (amount text : string) : string :=
  let cleanedText := keepAmountChars text in
  let formattedText := replaceFirst "," "." cleanedText in
  if String.eqb formattedText "" || negb (isNaN formattedText)
  then cleanedText else amount.

(** *** loadCategories of the expense form *)

Record Option_ : Type := mkOption { option_id : string; option_name : string }.

Definition defaultCategories : list string :=
  [ "Alimentação"; "Transporte"; "Moradia"; "Saúde";
    "Educação"; "Lazer"; "Compras"; "Outros" ].

(** The answer to the query for the user's expense categories: rows (or
    [null]), an error, or an exception. *)
Inductive CategoriesAnswer : Type :=
| Rows (data : option (list Option_))
| RowsError (error : string)
| RowsThrow (error : string).

Definition fallback : list Option_ :=
  map (fun name => mkOption name name) defaultCategories.

(** The new value of [categories] and what is logged. *)
Definition loadCategories (answer : CategoriesAnswer) : list Option_ * list Effect :=
  match answer with
  | RowsError e =>
      (fallback, [ConsoleLog ("Erro ao carregar categorias, usando padrão: " ++ e)])
  | Rows None => (fallback, [])
  | Rows (Some []) => (fallback, [])
  | Rows (Some data) => (data, [])
  | RowsThrow e =>
      (fallback, [ConsoleLog ("Erro crítico, usando categorias padrão: " ++ e)])
  end.

(** *** handleSubmit *)

Section Submit.

(** JavaScript numbers, with [parseFloat], [isNaN] and the test [x <= 0]. *)
Variable Number : Type.
Variable parseFloat : string -> Number.
Variable numberIsNaN : Number -> bool.
Variable leZero : Number -> bool.

(** The object given to [insert]. *)
Record NewTransaction : Type := mkNew {
  new_user_id : string;
  new_type : string;
  new_amount : Number;
  new_description : string;
  new_category : string;
  new_date : CivilDate;
  new_receipt_url : option string
}.

(** What the store does with the insert. *)
Inductive InsertAnswer : Type :=
| Stored
| Refused (error : string)
| RequestFailed (error : string).

(** The run of a [handleSubmit]: the insert it asked for, if it did, what it
    showed, and [loading] at the end. *)
Record Submitted : Type := mkSubmitted {
  request : option NewTransaction;
  effects : list Effect;
  loading : bool
}.

(** [handleSubmit] of the expense form. *)
Definition submitExpense (answer : InsertAnswer) (userId : string)
    (amount description category : string) (date : Z) (receipt : option string)
    (loadingBefore : bool) : Submitted :=
  if negb (truthy amount) || negb (truthy description) || negb (truthy category) then
    mkSubmitted None
      [Alert "Erro" "Por favor, preencha valor, descrição e categoria"] loadingBefore
  else
    let amountValue := parseFloat (replaceFirst "," "." amount) in
    if numberIsNaN amountValue || leZero amountValue then
      mkSubmitted None
        [Alert "Erro" "Por favor, insira um valor válido maior que zero"] loadingBefore
    else
      let row := mkNew userId "expense" amountValue description category
                       (isoDate date) receipt in
      match answer with
      | Stored =>
          mkSubmitted (Some row)
            [Alert "Sucesso" "Despesa cadastrada com sucesso!"; GoBack] false
      | Refused e | RequestFailed e =>
          mkSubmitted (Some row)
            [Alert "Erro" "Não foi possível cadastrar a despesa"; ConsoleError e] false
      end.

(** [handleSubmit] of the income form; the source goes into [category]. *)
Definition submitIncome (answer : InsertAnswer) (userId : string)
    (amount description source : string) (date : Z) (loadingBefore : bool)
  : Submitted :=
  if negb (truthy amount) || negb (truthy description) || negb (truthy source) then
    mkSubmitted None
      [Alert "Erro" "Por favor, preencha valor, descrição e fonte"] loadingBefore
  else
    let parsedAmount := parseFloat amount in
    if numberIsNaN parsedAmount || leZero parsedAmount then
      mkSubmitted None
        [Alert "Erro" "Por favor, insira um valor válido maior que zero"] loadingBefore
    else
      let row := mkNew userId "income" parsedAmount description source
                       (isoDate date) None in
      match answer with
      | Stored =>
          mkSubmitted (Some row)
            [Alert "Sucesso" "Receita cadastrada com sucesso!"; GoBack] false
      | Refused e | RequestFailed e =>
          mkSubmitted (Some row)
            [Alert "Erro" "Não foi possível cadastrar a receita";
             ConsoleError ("Erro ao inserir receita: " ++ e)] false
      end.

End Submit.

Arguments mkNew {Number}.
Arguments new_user_id {Number}.
Arguments new_type {Number}.
Arguments new_amount {Number}.
Arguments new_description {Number}.
Arguments new_category {Number}.
Arguments new_date {Number}.
Arguments new_receipt_url {Number}.
Arguments mkSubmitted {Number}.
Arguments request {Number}.
Arguments effects {Number}.
Arguments loading {Number}.

End Entry.

(** ** RegisterScreen.js and LoginScreen.js *)

Module Account.

Import Screen Auth.

(** A call of the provider made by a form. *)
Inductive Call : Type :=
| CallSignUp (email password : string)
| CallSignIn (email password : string).

(** The run of a handler: the calls it made, what it showed, the form's
    [loading] at the end and the provider's world. *)
Record Run : Type := mkRun {
  calls : list Call;
  effects : list Effect;
  loading : bool;
  world : World
}.

(** [error.message || generic]. *)
Definition messageOr (generic message : string) : string :=
  if truthy message then message else generic.

Section Forms.

(** [String.prototype.length]. *)
Variable strLength : string -> Z.

Definition handleRegister (auth : AuthOutcome) (seeding : InsertOutcome)
    (email password confirmPassword : string) (loadingBefore : bool) (w : World)
  : Run :=
  if negb (truthy email) || negb (truthy password) || negb (truthy confirmPassword) then
    mkRun [] [Alert "Erro" "Por favor, preencha todos os campos"] loadingBefore w
  else if negb (String.eqb password confirmPassword) then
    mkRun [] [Alert "Erro" "As senhas não coincidem"] loadingBefore w
  else if strLength password <? 6 then
    mkRun [] [Alert "Erro" "A senha deve ter pelo menos 6 caracteres"] loadingBefore w
  else
    match signUp auth seeding w with
    | (Returns result, w') =>
        match error result with
        | Some message =>
            mkRun [CallSignUp email password]
                  [Alert "Erro" (messageOr "Não foi possível criar a conta" message)]
                  false w'
        | None =>
            mkRun [CallSignUp email password]
                  [Alert "Sucesso" "Conta criada com sucesso! Faça login.";
                   Navigate "Login"]
                  false w'
        end
    | (Throws _, w') => mkRun [CallSignUp email password] [] true w'
    end.


End Forms.

End Account.

(** * Properties *)

Import Dashboard Transactions.

(** *** The day number determines the date *)

Section CalendarRoundTrip.

Local Ltac by_division := Z.div_mod_to_equations; lia.

Lemma yoe_of_doe (yoe doy : Z) :
  0 <= yoe < 400 -> 0 <= doy <= 365 ->
  (doy = 365 -> ((yoe + 1) mod 4 = 0 /\ (yoe + 1) mod 100 <> 0) \/ (yoe + 1) mod 400 = 0) ->
  let doe := yoe * 365 + yoe / 4 - yoe / 100 + doy in
  0 <= doe < 146097 /\ yoe_of doe = yoe.
Proof.
  intros Hy Hd Hleap. cbv zeta. unfold yoe_of.
  assert (doy <= 364 \/ doy = 365) as [Hs | ->] by lia.
  - clear Hleap. by_division.
  - specialize (Hleap eq_refl). by_division.
Qed.

Lemma month_of_doy (mp d : Z) :
  0 <= mp < 12 -> 1 <= d <= 31 ->
  (mp = 1 \/ mp = 3 \/ mp = 6 \/ mp = 8 -> d <= 30) -> (mp = 11 -> d <= 29) ->
  let doy := (153 * mp + 2) / 5 + d - 1 in
  0 <= doy <= 365 /\ (doy = 365 -> mp = 11 /\ d = 29) /\
  (5 * doy + 2) / 153 = mp /\ doy - (153 * mp + 2) / 5 + 1 = d.
Proof.
  intros Hm Hd H30 H29. cbv zeta.
  assert (mp = 0 \/ mp = 1 \/ mp = 2 \/ mp = 3 \/ mp = 4 \/ mp = 5 \/ mp = 6 \/
          mp = 7 \/ mp = 8 \/ mp = 9 \/ mp = 10 \/ mp = 11) as Hc by lia.
  repeat (destruct Hc as [-> | Hc]; [by_division |]). subst mp. by_division.
Qed.

(** Parsing a valid date and reading the day back gives the date. *)
Lemma civil_from_days_from_civil (d : CivilDate) :
  validDate d = true -> civil_from_days (days_from_civil d) = d.
Proof.
  destruct d as [y m dd]. unfold validDate. cbn [year month day].
  rewrite !andb_true_iff, !Z.leb_le. intros [[[Hm1 Hm12] Hd1] Hdim].
  set (y0 := if m <=? 2 then y - 1 else y).
  set (era := y0 / 400).
  set (yoe := y0 - era * 400).
  set (mp := if m <=? 2 then m + 9 else m - 3).
  assert (Hyoe : 0 <= yoe < 400) by (subst yoe era; by_division).
  assert (Hmp : 0 <= mp < 12) by (subst mp; destruct (Z.leb_spec m 2); lia).
  assert (Hm : m = if mp <? 10 then mp + 3 else mp - 9).
  { subst mp. destruct (Z.leb_spec m 2);
      match goal with |- context [?a <? ?b] => destruct (Z.ltb_spec a b) end; lia. }
  assert (Hbound : dd <= 31 /\ (mp = 1 \/ mp = 3 \/ mp = 6 \/ mp = 8 -> dd <= 30) /\
                   (mp = 11 -> dd <= 29 /\ (dd = 29 -> isLeap y = true /\ y = yoe + 1 + era * 400))).
  { unfold daysInMonth in Hdim. subst mp yoe y0.
    destruct (Z.leb_spec m 2); destruct (Z.eqb_spec m 2);
      [ destruct (isLeap y) | | | ];
      repeat match type of Hdim with
             | context [?a =? ?b] => destruct (Z.eqb_spec a b)
             end; cbn [orb] in Hdim; repeat split; intros; try lia. }
  destruct Hbound as (H31 & H30 & H29).
  destruct (month_of_doy mp dd Hmp ltac:(lia) H30 ltac:(intros E; apply H29, E))
    as (Hdoy & Hfeb & Hmp' & Hd').
  set (doy := (153 * mp + 2) / 5 + dd - 1) in *.
  assert (Hleap : doy = 365 ->
            ((yoe + 1) mod 4 = 0 /\ (yoe + 1) mod 100 <> 0) \/ (yoe + 1) mod 400 = 0).
  { intros E. destruct (Hfeb E) as [E1 E2].
    destruct (H29 E1) as [_ Hl]. destruct (Hl E2) as [Hl' Hy]. clear Hl.
    unfold isLeap in Hl'. rewrite Hy in Hl'.
    rewrite orb_true_iff, andb_true_iff, negb_true_iff, !Z.eqb_eq, Z.eqb_neq in Hl'.
    by_division. }
  destruct (yoe_of_doe yoe doy Hyoe Hdoy Hleap) as [Hdoe Hy'].
  unfold days_from_civil, civil_from_days. cbn [year month day].
  fold y0. fold era. fold yoe. fold mp. unfold doe_of. fold doy.
  set (doe := yoe * 365 + yoe / 4 - yoe / 100 + doy) in *.
  replace (era * 146097 + doe - 719468 + 719468) with (doe + era * 146097) by lia.
  rewrite Z.div_add by lia. rewrite (Z.div_small doe 146097) by lia.
  replace (doe + era * 146097 - (0 + era) * 146097) with doe by lia.
  assert (Hdoy' : doy_of doe = doy) by (unfold doy_of; rewrite Hy'; subst doe; lia).
  assert (Hmpo : mp_of doe = mp) by (unfold mp_of; rewrite Hdoy'; exact Hmp').
  assert (Hdom : dom_of doe = dd) by (unfold dom_of; rewrite Hmpo, Hdoy'; exact Hd').
  cbv zeta. rewrite Hy', Hmpo, Hdom, <- Hm.
  f_equal. subst yoe y0. destruct (Z.leb_spec m 2); lia.
Qed.

Lemma doe_to_year (doe : Z) :
  0 <= doe < 146097 ->
  0 <= yoe_of doe < 400 /\ 0 <= doy_of doe <= 365
  /\ (doy_of doe = 365 ->
      ((yoe_of doe + 1) mod 4 = 0 /\ (yoe_of doe + 1) mod 100 <> 0)
      \/ (yoe_of doe + 1) mod 400 = 0).
Proof.
  intros H. unfold doy_of. cbv zeta. unfold yoe_of. by_division.
Qed.

Lemma doy_to_month (doy : Z) :
  0 <= doy <= 365 ->
  let mp := (5 * doy + 2) / 153 in
  let d := doy - (153 * mp + 2) / 5 + 1 in
  0 <= mp < 12 /\ 1 <= d <= 31
  /\ (mp = 1 \/ mp = 3 \/ mp = 6 \/ mp = 8 -> d <= 30)
  /\ (mp = 11 -> d <= 29 /\ (d = 29 -> doy = 365)).
Proof.
  intros H. cbv zeta.
  assert (Hm : 0 <= (5 * doy + 2) / 153 < 12) by by_division.
  set (mp := (5 * doy + 2) / 153) in *.
  assert (Hd : 153 * mp <= 5 * doy + 2 < 153 * mp + 153) by (subst mp; by_division).
  clearbody mp.
  assert (mp = 0 \/ mp = 1 \/ mp = 2 \/ mp = 3 \/ mp = 4 \/ mp = 5 \/ mp = 6 \/
          mp = 7 \/ mp = 8 \/ mp = 9 \/ mp = 10 \/ mp = 11) as Hc by lia.
  repeat (destruct Hc as [-> | Hc]; [by_division |]). subst mp. by_division.
Qed.

(** Every day number is the day number of a valid date: its own. *)
Lemma days_from_civil_from_days (z : Z) :
  validDate (civil_from_days z) = true /\ days_from_civil (civil_from_days z) = z.
Proof.
  unfold civil_from_days.
  set (era := (z + 719468) / 146097).
  set (doe := z + 719468 - era * 146097).
  assert (Hdoe : 0 <= doe < 146097) by (subst doe era; by_division).
  destruct (doe_to_year doe Hdoe) as (Hyoe & Hdoy & Hleap).
  pose proof (doy_to_month (doy_of doe) Hdoy) as Hmon. cbv zeta in Hmon.
  fold (mp_of doe) in Hmon. fold (dom_of doe) in Hmon.
  destruct Hmon as (Hmp & Hd & H30 & H29).
  assert (Hdoy' : doy_of doe = doe - (365 * yoe_of doe + yoe_of doe / 4 - yoe_of doe / 100))
    by reflexivity.
  assert (Hdom : dom_of doe = doy_of doe - (153 * mp_of doe + 2) / 5 + 1) by reflexivity.
  set (yoe := yoe_of doe) in *. set (doy := doy_of doe) in *.
  set (mp := mp_of doe) in *. set (d := dom_of doe) in *.
  clearbody yoe doy mp d. cbv zeta.
  set (m := if mp <? 10 then mp + 3 else mp - 9).
  assert (Hm : (mp < 10 /\ m = mp + 3 /\ 2 < m) \/ (10 <= mp /\ m = mp - 9 /\ m <= 2)).
  { subst m. destruct (Z.ltb_spec mp 10); lia. }
  clearbody m.
  set (y := if m <=? 2 then yoe + era * 400 + 1 else yoe + era * 400).
  assert (Hy : y = yoe + era * 400 + (if m <=? 2 then 1 else 0))
    by (subst y; destruct (m <=? 2); lia).
  clearbody y.
  split.
  - unfold validDate. cbn [year month day].
    rewrite !andb_true_iff, !Z.leb_le.
    split; [split; [lia | lia] |].
    unfold daysInMonth.
    destruct (Z.eqb_spec m 2) as [E2 | N2].
    + assert (mp = 11) by lia.
      destruct (H29 ltac:(assumption)) as [L29 C29].
      destruct (isLeap y) eqn:Lp; [exact L29 |].
      assert (d = 29 -> False); [| lia].
      intros E. specialize (Hleap (C29 E)).
      unfold isLeap in Lp. rewrite Hy in Lp.
      destruct (m <=? 2) eqn:M2; [| apply Z.leb_gt in M2; lia].
      rewrite orb_false_iff, andb_false_iff, negb_false_iff, !Z.eqb_neq, Z.eqb_eq in Lp.
      revert Hleap Lp. clear. by_division.
    + repeat match goal with
             | |- context [?a =? ?b] => destruct (Z.eqb_spec a b)
             end; cbn [orb]; lia.
  - unfold days_from_civil. cbn [year month day].
    assert (Y0 : (if m <=? 2 then y - 1 else y) = yoe + era * 400)
      by (rewrite Hy; destruct (m <=? 2); lia).
    assert (M0 : (if m <=? 2 then m + 9 else m - 3) = mp)
      by (destruct (Z.leb_spec m 2); lia).
    rewrite Y0, M0.
    replace ((yoe + era * 400) / 400) with era by by_division.
    replace (yoe + era * 400 - era * 400) with yoe by lia.
    unfold doe_of. subst doe. lia.
Qed.

Lemma civil_from_days_inj (a b : Z) : civil_from_days a = civil_from_days b -> a = b.
Proof.
  intros E. rewrite <- (proj2 (days_from_civil_from_days a)), E.
  apply days_from_civil_from_days.
Qed.

End CalendarRoundTrip.

(** A time value at or after midnight UTC, read in a zone at or east of
    Greenwich, is still on the day it was parsed from. *)
Lemma localDay_Date_parse (LocalTZA : Z) (d : CivilDate) :
  0 <= LocalTZA < msPerDay ->
  localDay LocalTZA (Date_parse d) = days_from_civil d.
Proof.
  intros H. unfold localDay, Date_parse.
  rewrite Z.add_comm, Z.div_add by (unfold msPerDay; lia).
  rewrite Z.div_small by exact H. reflexivity.
Qed.

(** West of Greenwich it is on the day before. *)
Lemma localDay_Date_parse_west (LocalTZA : Z) (d : CivilDate) :
  - msPerDay <= LocalTZA < 0 ->
  localDay LocalTZA (Date_parse d) = days_from_civil d - 1.
Proof.
  intros H. unfold localDay, Date_parse.
  replace (days_from_civil d * msPerDay + LocalTZA)
    with (LocalTZA + msPerDay + (days_from_civil d - 1) * msPerDay) by lia.
  rewrite Z.div_add by (unfold msPerDay; lia).
  rewrite Z.div_small by lia. reflexivity.
Qed.

(** ** The sample of the specification *)

Definition tx (kind : string) (amt : Z) (cat : string) (d : CivilDate) : Transaction :=
  mkTransaction "" "user1" kind amt (Some "") (Some cat) d.

Definition sample : list Transaction :=
  [ tx "expense" 5000 "Food" (mkDate 2024 1 10);
    tx "expense" 12000 "Rent" (mkDate 2024 1 15);
    tx "income" 100000 "Salary" (mkDate 2024 1 5) ].

Example sample_balance : computeBalance sample = asNumber 83000.
Proof. vm_compute. reflexivity. Qed.

Example sample_months :
  processMonthlyData 0 sample = [Point.mk (2024, 1) (asNumber 100000) (asNumber 17000)].
Proof. vm_compute. reflexivity. Qed.

Example sample_highlights :
  calculateHighlights sample =
  mkHighlights (Some (tx "expense" 12000 "Rent" (mkDate 2024 1 15))) "Salary".
Proof. vm_compute. reflexivity. Qed.

(** ** The balance *)

(** Sum of a list of integers. *)
Definition zsum (l : list Z) : Z := fold_right Z.add 0 l.

Section Balance.

Definition hasType (kind : string) (t : Transaction) : bool :=
  String.eqb (type t) kind.

(** The numbers of the transactions that satisfy [p], in the order of the
    list. *)
Fixpoint amountsWhere (p : Transaction -> bool) (ts : list Transaction) : list double :=
  match ts with
  | [] => []
  | t :: rest =>
      if p t then asNumber (amount t) :: amountsWhere p rest else amountsWhere p rest
  end.

(** Numbers added to [acc] one by one from the left, each addition
    rounded. *)
Fixpoint sumFrom (acc : double) (xs : list double) : double :=
  match xs with
  | [] => acc
  | x :: rest => sumFrom (PrimFloat.add acc x) rest
  end.

Definition sumLeft (xs : list double) : double := sumFrom PrimFloat.zero xs.

(** The left-to-right sum of the amounts of the transactions that satisfy
    [p]. *)
Definition amountWhere (p : Transaction -> bool) (ts : list Transaction) : double :=
  sumLeft (amountsWhere p ts).

(** The same sum in exact decimal arithmetic, in hundredths. *)
Definition exactWhere (p : Transaction -> bool) (ts : list Transaction) : Z :=
  zsum (map amount (filter p ts)).

Lemma sumFrom_app (acc : double) (xs ys : list double) :
  sumFrom acc (xs ++ ys) = sumFrom (sumFrom acc xs) ys.
Proof.
  revert acc. induction xs as [| x xs IH]; intros acc; cbn [app sumFrom];
    [reflexivity | apply IH].
Qed.

Lemma amountsWhere_app (p : Transaction -> bool) (l1 l2 : list Transaction) :
  amountsWhere p (l1 ++ l2) = (amountsWhere p l1 ++ amountsWhere p l2)%list.
Proof.
  induction l1 as [| t l1 IH]; cbn [app amountsWhere]; [reflexivity |].
  destruct (p t); rewrite IH; reflexivity.
Qed.

(** One more transaction at the end is one more addition, or none. *)
Lemma amountWhere_snoc (p : Transaction -> bool) (ts : list Transaction) (t : Transaction) :
  amountWhere p (ts ++ [t])
  = if p t then PrimFloat.add (amountWhere p ts) (asNumber (amount t))
    else amountWhere p ts.
Proof.
  unfold amountWhere, sumLeft. rewrite amountsWhere_app, sumFrom_app.
  cbn [amountsWhere]. destruct (p t); reflexivity.
Qed.

Lemma fold_sum_from (ts : list Transaction) (acc : double) :
  fold_left (fun sum t => PrimFloat.add sum (asNumber (amount t))) ts acc
  = sumFrom acc (map (fun t => asNumber (amount t)) ts).
Proof.
  revert acc. induction ts as [| t rest IH]; intros acc; cbn [fold_left map sumFrom];
    [reflexivity | apply IH].
Qed.

Lemma amountsWhere_filter (p : Transaction -> bool) (ts : list Transaction) :
  map (fun t => asNumber (amount t)) (filter p ts) = amountsWhere p ts.
Proof.
  induction ts as [| t rest IH]; cbn [filter amountsWhere]; [reflexivity |].
  destruct (p t); cbn [map]; rewrite IH; reflexivity.
Qed.

Lemma sumAmounts_filter (p : Transaction -> bool) (ts : list Transaction) :
  sumAmounts (filter p ts) = amountWhere p ts.
Proof.
  unfold sumAmounts, amountWhere, sumLeft.
  rewrite fold_sum_from, amountsWhere_filter. reflexivity.
Qed.

Lemma amountsWhere_ext (p q : Transaction -> bool) (ts : list Transaction) :
  Forall (fun t => p t = q t) ts -> amountsWhere p ts = amountsWhere q ts.
Proof.
  induction 1 as [| t rest E _ IH]; cbn [amountsWhere]; [reflexivity |].
  rewrite E, IH. reflexivity.
Qed.

Lemma amountsWhere_none (p : Transaction -> bool) (ts : list Transaction) :
  Forall (fun t => p t = false) ts -> amountsWhere p ts = [].
Proof.
  induction 1 as [| t rest E _ IH]; cbn [amountsWhere]; [reflexivity |].
  rewrite E. exact IH.
Qed.

Lemma computeBalance_amounts (transactions : list Transaction) :
  computeBalance transactions
  = PrimFloat.sub (amountWhere (hasType "income") transactions)
                  (amountWhere (hasType "expense") transactions).
Proof.
  unfold computeBalance, totalIncome, totalExpenses.
  rewrite !sumAmounts_filter. reflexivity.
Qed.

(** The claim on the balance in the words of the specification: the balance
    is the decimal sum of the income amounts minus the decimal sum of the
    expense amounts, read as a number. *)
Definition computeBalance_as_stated (transactions : list Transaction) : Prop :=
  computeBalance transactions
  = asNumber (exactWhere (hasType "income") transactions
              - exactWhere (hasType "expense") transactions).

(** Incomes of 0.10 and 0.20 and an expense of 0.30. *)
Definition thirtyCents : list Transaction :=
  [ tx "income" 10 "Tips" (mkDate 2024 1 5);
    tx "income" 20 "Tips" (mkDate 2024 1 6);
    tx "expense" 30 "Food" (mkDate 2024 1 7) ].

(** Incomes of 0.10, 0.20 and 0.30. *)
Definition sixtyCents : list Transaction :=
  [ tx "income" 10 "Tips" (mkDate 2024 1 5);
    tx "income" 20 "Tips" (mkDate 2024 1 6);
    tx "income" 30 "Tips" (mkDate 2024 1 7) ].

(** C1, counterexample.  The decimal balance of [thirtyCents] is 0; the
    balance computed is [2^-54], about 5.55e-17, because 0.1 + 0.2 rounds to
    the number above 0.3.  The balance also depends on the order of the
    list: [sixtyCents] gives 0.6000000000000001 and its reverse 0.6. *)
Lemma computeBalance_as_stated_fails :
  ~ computeBalance_as_stated thirtyCents
  /\ strictEquals (computeBalance thirtyCents) (asNumber 0) = false
  /\ computeBalance thirtyCents
     = PrimFloat.div (ofInteger 1) (ofInteger (2 ^ 54))
  /\ ~ computeBalance_as_stated sixtyCents
  /\ computeBalance (rev sixtyCents) = asNumber 60
  /\ strictEquals (computeBalance sixtyCents) (computeBalance (rev sixtyCents)) = false.
Proof.
  split; [| split; [| split; [| split; [| split]]]].
  - intros H. apply (f_equal (fun x => strictEquals x (asNumber 0))) in H.
    vm_compute in H. discriminate H.
  - vm_compute. reflexivity.
  - vm_compute. reflexivity.
  - intros H. apply (f_equal (fun x => strictEquals x (asNumber 60))) in H.
    vm_compute in H. discriminate H.
  - vm_compute. reflexivity.
  - vm_compute. reflexivity.
Qed.

(** C1, amended.  The balance is the sum of the numbers of the transactions
    whose type is ['income'] minus the sum of those whose type is
    ['expense'], each sum taken from 0 in the order of the list with a
    rounded addition per transaction, and the difference rounded; it is 0
    for the empty list; and it is the balance [loadDashboardData] stores. *)
Theorem computeBalance_is_rounded_income_minus_expenses :
  forall transactions : list Transaction,
    computeBalance transactions
    = PrimFloat.sub (amountWhere (hasType "income") transactions)
                    (amountWhere (hasType "expense") transactions)
    /\ computeBalance [] = PrimFloat.zero
    /\ (forall t,
          computeBalance (transactions ++ [t])
          = PrimFloat.sub
              (if hasType "income" t
               then PrimFloat.add (amountWhere (hasType "income") transactions)
                                  (asNumber (amount t))
               else amountWhere (hasType "income") transactions)
              (if hasType "expense" t
               then PrimFloat.add (amountWhere (hasType "expense") transactions)
                                  (asNumber (amount t))
               else amountWhere (hasType "expense") transactions))
    /\ forall LocalTZA s,
         balance (fst (loadDashboardData LocalTZA (QueryData transactions) s))
         = PrimFloat.sub (amountWhere (hasType "income") transactions)
                         (amountWhere (hasType "expense") transactions).
Proof.
  intros transactions.
  split; [apply computeBalance_amounts | split; [vm_compute; reflexivity | split]].
  - intros t. rewrite computeBalance_amounts, !amountWhere_snoc. reflexivity.
  - intros LocalTZA s. cbn [loadDashboardData fst balance].
    apply computeBalance_amounts.
Qed.

End Balance.

(** ** Own properties *)

Section OwnPropertyFacts.

Import JSObject.

Context {K V : Type} (eqb : K -> K -> bool).
Hypothesis eqb_eq : forall a b, eqb a b = true <-> a = b.

Lemma eqb_refl (k : K) : eqb k k = true.
Proof. apply eqb_eq. reflexivity. Qed.

Lemma eqb_neq (a b : K) : a <> b -> eqb a b = false.
Proof.
  intros N. destruct (eqb a b) eqn:E; [| reflexivity].
  apply eqb_eq in E. contradiction.
Qed.

Lemma get_set_same (o : list (K * V)) (k : K) (v : V) :
  get eqb (set eqb o k v) k = Some v.
Proof.
  induction o as [| [k' v'] rest IH]; cbn [set get].
  - rewrite eqb_refl. reflexivity.
  - destruct (eqb k' k) eqn:E; cbn [get]; rewrite E; [reflexivity | exact IH].
Qed.

Lemma get_set_other (o : list (K * V)) (k k0 : K) (v : V) :
  k <> k0 -> get eqb (set eqb o k v) k0 = get eqb o k0.
Proof.
  intros N. induction o as [| [k' v'] rest IH]; cbn [set get].
  - rewrite (eqb_neq k k0 N). reflexivity.
  - destruct (eqb k' k) eqn:E; cbn [get].
    + apply eqb_eq in E. subst k'. rewrite (eqb_neq k k0 N). reflexivity.
    + destruct (eqb k' k0); [reflexivity | exact IH].
Qed.

Lemma get_None_iff (o : list (K * V)) (k : K) :
  get eqb o k = None <-> ~ In k (ownKeys o).
Proof.
  induction o as [| [k' v'] rest IH]; cbn [get ownKeys map fst In].
  - tauto.
  - destruct (eqb k' k) eqn:E.
    + apply eqb_eq in E. split; [discriminate | intros N; exfalso; apply N; left; exact E].
    + rewrite IH. unfold ownKeys. split.
      * intros N [E' | I]; [apply eqb_eq in E'; congruence | contradiction].
      * intros N I. apply N. right. exact I.
Qed.

Lemma ownKeys_set (o : list (K * V)) (k : K) (v : V) :
  ownKeys (set eqb o k v)
  = match get eqb o k with Some _ => ownKeys o | None => (ownKeys o ++ [k])%list end.
Proof.
  induction o as [| [k' v'] rest IH]; cbn [set get ownKeys map fst app].
  - reflexivity.
  - destruct (eqb k' k) eqn:E; cbn [map fst].
    + reflexivity.
    + unfold ownKeys in IH. rewrite IH.
      destruct (get eqb rest k); reflexivity.
Qed.

Lemma NoDup_set (o : list (K * V)) (k : K) (v : V) :
  NoDup (ownKeys o) -> NoDup (ownKeys (set eqb o k v)).
Proof.
  intros N. rewrite ownKeys_set.
  destruct (get eqb o k) eqn:E; [exact N |].
  apply get_None_iff in E.
  apply NoDup_rev in N. rewrite <- (rev_involutive (ownKeys o ++ [k])%list).
  apply NoDup_rev. rewrite rev_app_distr. cbn [rev app].
  constructor; [rewrite <- in_rev; exact E | exact N].
Qed.

Lemma get_In (o : list (K * V)) (k : K) (v : V) :
  NoDup (ownKeys o) -> In (k, v) o -> get eqb o k = Some v.
Proof.
  induction o as [| [k' v'] rest IH]; cbn [ownKeys map fst get In]; [tauto |].
  intros N [E | I].
  - injection E as -> ->. rewrite eqb_refl. reflexivity.
  - inversion N as [| ? ? Hnotin Hnodup]; subst.
    destruct (eqb k' k) eqn:E.
    + apply eqb_eq in E. subst k'. exfalso. apply Hnotin.
      apply (in_map fst) in I. exact I.
    + apply IH; assumption.
Qed.

(** Reading every own key back gives the properties themselves. *)
Lemma map_get_ownKeys {A : Type} (f : K -> V -> A) (d : K -> A) (o : list (K * V)) :
  NoDup (ownKeys o) ->
  map (fun k => match get eqb o k with Some v => f k v | None => d k end) (ownKeys o)
  = map (fun kv => f (fst kv) (snd kv)) o.
Proof.
  intros N. unfold ownKeys. rewrite map_map.
  apply map_ext_in. intros [k v] I. cbn [fst snd].
  rewrite (get_In o k v N I). reflexivity.
Qed.

End OwnPropertyFacts.


(** ** The monthly series *)

Lemma monthKey_eqb_eq (a b : MonthKey) : monthKey_eqb a b = true <-> a = b.
Proof.
  destruct a as [y m], b as [y' m']. unfold monthKey_eqb. cbn [fst snd].
  rewrite andb_true_iff, !Z.eqb_eq. split; [intros [-> ->] | intros [= -> ->]]; auto.
Qed.

Section Monthly.

Import JSObject.

Variable LocalTZA : Z.

Abbreviation key := (monthKey LocalTZA).
Abbreviation mget := (get monthKey_eqb).
Abbreviation mset := (set monthKey_eqb).

(* The proofs of this section never look inside the key. *)
Local Opaque monthKey.

Definition inMonth (k : MonthKey) (t : Transaction) : bool :=
  monthKey_eqb (key t) k.

Definition isIncome (t : Transaction) : bool := hasType "income" t.

(** What one transaction does to the totals of its month. *)
Definition bump (t : Transaction) (b : Totals.t) : Totals.t :=
  if isIncome t
  then Totals.mk (PrimFloat.add (Totals.income b) (asNumber (amount t))) (Totals.expenses b)
  else Totals.mk (Totals.income b) (PrimFloat.add (Totals.expenses b) (asNumber (amount t))).

Abbreviation zeros := (Totals.mk PrimFloat.zero PrimFloat.zero).

Definition orZero (b : option Totals.t) : Totals.t :=
  match b with Some b => b | None => zeros end.

Lemma addTransaction_set (months : list (MonthKey * Totals.t)) (t : Transaction) :
  addTransaction LocalTZA months t
  = match mget months (key t) with
    | Some b => mset months (key t) (bump t b)
    | None => mset (mset months (key t) zeros) (key t) (bump t zeros)
    end.
Proof.
  unfold addTransaction, bump, isIncome, hasType.
  destruct (mget months (key t)) as [b |] eqn:E.
  - rewrite E. destruct (String.eqb (type t) "income"); reflexivity.
  - rewrite (get_set_same monthKey_eqb monthKey_eqb_eq).
    destruct (String.eqb (type t) "income"); reflexivity.
Qed.

Lemma get_addTransaction (months : list (MonthKey * Totals.t)) (t : Transaction)
    (k : MonthKey) :
  mget (addTransaction LocalTZA months t) k
  = if inMonth k t then Some (bump t (orZero (mget months (key t))))
    else mget months k.
Proof.
  rewrite addTransaction_set. unfold inMonth.
  destruct (monthKey_eqb (key t) k) eqn:E.
  - apply monthKey_eqb_eq in E. subst k.
    destruct (mget months (key t)); cbn [orZero];
      apply (get_set_same monthKey_eqb monthKey_eqb_eq).
  - assert (N : key t <> k).
    { intros C. apply monthKey_eqb_eq in C. congruence. }
    destruct (mget months (key t));
      rewrite ?(get_set_other monthKey_eqb monthKey_eqb_eq) by exact N; reflexivity.
Qed.

Lemma ownKeys_addTransaction (months : list (MonthKey * Totals.t)) (t : Transaction) :
  ownKeys (addTransaction LocalTZA months t)
  = match mget months (key t) with
    | Some _ => ownKeys months
    | None => (ownKeys months ++ [key t])%list
    end.
Proof.
  rewrite addTransaction_set.
  destruct (mget months (key t)) eqn:E.
  - rewrite (ownKeys_set monthKey_eqb), E. reflexivity.
  - rewrite !(ownKeys_set monthKey_eqb), E.
    rewrite (get_set_same monthKey_eqb monthKey_eqb_eq). reflexivity.
Qed.

Lemma NoDup_addTransaction (months : list (MonthKey * Totals.t)) (t : Transaction) :
  NoDup (ownKeys months) -> NoDup (ownKeys (addTransaction LocalTZA months t)).
Proof.
  intros N. rewrite addTransaction_set.
  destruct (mget months (key t));
    repeat apply (NoDup_set monthKey_eqb monthKey_eqb_eq); exact N.
Qed.

Lemma monthsOf_snoc (ts : list Transaction) (t : Transaction) :
  monthsOf LocalTZA (ts ++ [t]) = addTransaction LocalTZA (monthsOf LocalTZA ts) t.
Proof. unfold monthsOf. rewrite fold_left_app. reflexivity. Qed.

Lemma NoDup_monthsOf (ts : list Transaction) :
  NoDup (ownKeys (monthsOf LocalTZA ts)).
Proof.
  induction ts as [| t ts IH] using rev_ind.
  - constructor.
  - rewrite monthsOf_snoc. apply NoDup_addTransaction, IH.
Qed.

Lemma amountWhere_none (k : MonthKey) (p : Transaction -> bool) (ts : list Transaction) :
  existsb (inMonth k) ts = false ->
  amountWhere (fun t => inMonth k t && p t) ts = PrimFloat.zero.
Proof.
  intros E. unfold amountWhere. rewrite amountsWhere_none; [reflexivity |].
  induction ts as [| t ts IH]; [constructor |].
  cbn [existsb] in E. apply orb_false_iff in E. destruct E as [E1 E2].
  constructor; [rewrite E1; reflexivity | exact (IH E2)].
Qed.

(** The totals of every month the map holds, and of no other: each field is
    the sum, from 0 and in the order of the list, of the numbers the
    callback added to it. *)
Lemma get_monthsOf (ts : list Transaction) (k : MonthKey) :
  mget (monthsOf LocalTZA ts) k
  = if existsb (inMonth k) ts
    then Some (Totals.mk
                 (amountWhere (fun t => inMonth k t && isIncome t) ts)
                 (amountWhere (fun t => inMonth k t && negb (isIncome t)) ts))
    else None.
Proof.
  induction ts as [| t ts IH] using rev_ind.
  - reflexivity.
  - rewrite monthsOf_snoc, get_addTransaction, existsb_app, !amountWhere_snoc.
    cbn [existsb]. rewrite orb_false_r.
    destruct (inMonth k t) eqn:E.
    + assert (Ek : key t = k) by (apply monthKey_eqb_eq; exact E).
      rewrite Ek, IH, orb_true_r. cbn [andb]. unfold bump.
      destruct (existsb (inMonth k) ts) eqn:X, (isIncome t);
        cbn [orZero negb Totals.income Totals.expenses];
        rewrite ?(amountWhere_none k _ ts X); reflexivity.
    + rewrite IH, orb_false_r. cbn [andb].
      destruct (existsb (inMonth k) ts); reflexivity.
Qed.

Lemma processMonthlyData_map (ts : list Transaction) :
  processMonthlyData LocalTZA ts
  = map (fun kv => Point.mk (fst kv) (Totals.income (snd kv)) (Totals.expenses (snd kv)))
        (monthsOf LocalTZA ts).
Proof.
  unfold processMonthlyData.
  apply (map_get_ownKeys monthKey_eqb monthKey_eqb_eq
           (fun k b => Point.mk k (Totals.income b) (Totals.expenses b))
           (fun k => Point.mk k PrimFloat.zero PrimFloat.zero)).
  apply NoDup_monthsOf.
Qed.

Lemma months_of_series (ts : list Transaction) :
  map Point.month (processMonthlyData LocalTZA ts) = ownKeys (monthsOf LocalTZA ts).
Proof. rewrite processMonthlyData_map, map_map. reflexivity. Qed.

Lemma In_ownKeys_monthsOf (ts : list Transaction) (k : MonthKey) :
  In k (ownKeys (monthsOf LocalTZA ts)) <-> exists t, In t ts /\ key t = k.
Proof.
  assert (D : In k (ownKeys (monthsOf LocalTZA ts)) <-> existsb (inMonth k) ts = true).
  { pose proof (get_None_iff monthKey_eqb monthKey_eqb_eq (monthsOf LocalTZA ts) k) as G.
    rewrite get_monthsOf in G.
    destruct (existsb (inMonth k) ts).
    - split; [reflexivity | intros _].
      destruct (in_dec (fun a b : MonthKey =>
                          ltac:(decide equality; apply Z.eq_dec) : {a = b} + {a <> b})
                       k (ownKeys (monthsOf LocalTZA ts))) as [I | N]; [exact I |].
      apply G in N. discriminate.
    - split; [intros I | discriminate].
      exfalso. apply (proj1 G eq_refl I). }
  rewrite D, existsb_exists. unfold inMonth.
  split; intros (t & I & E); exists t; (split; [exact I |]); apply monthKey_eqb_eq; exact E.
Qed.

End Monthly.

(** The calendar year and month written in a transaction's date. *)
Definition dateMonth (t : Transaction) : MonthKey :=
  (year (date t), month (date t)).

Definition inDateMonth (k : MonthKey) (t : Transaction) : bool :=
  monthKey_eqb (dateMonth t) k.

(** At or east of Greenwich, less than a day ahead, the key of a transaction is
    the year and month of its date. *)
Lemma monthKey_dateMonth (LocalTZA : Z) (t : Transaction) :
  0 <= LocalTZA < msPerDay -> validDate (date t) = true ->
  monthKey LocalTZA t = dateMonth t.
Proof.
  intros Hz Hv. unfold monthKey, dateMonth, getFullYear, getMonth, localDate.
  rewrite (localDay_Date_parse LocalTZA (date t) Hz).
  rewrite (civil_from_days_from_civil (date t) Hv).
  f_equal. lia.
Qed.

(** West of Greenwich the key is the year and month of the day before the
    date: a transaction dated on the first of a month is keyed to the month
    before. *)
Lemma monthKey_west_of_Greenwich (LocalTZA : Z) (t : Transaction) :
  - msPerDay <= LocalTZA < 0 ->
  monthKey LocalTZA t
  = (year (civil_from_days (days_from_civil (date t) - 1)),
     month (civil_from_days (days_from_civil (date t) - 1))).
Proof.
  intros Hz. unfold monthKey, getFullYear, getMonth, localDate.
  rewrite (localDay_Date_parse_west LocalTZA (date t) Hz).
  f_equal. lia.
Qed.

Lemma monthKey_west_of_Greenwich_witness :
  monthKey (-3 * 3600000) (tx "expense" 5000 "Food" (mkDate 2024 2 1)) = (2024, 1).
Proof.
  rewrite (monthKey_west_of_Greenwich (-3 * 3600000)) by (unfold msPerDay; lia).
  reflexivity.
Defined.

Lemma series_points (LocalTZA : Z) (ts : list Transaction) (p : Point.t) :
  In p (processMonthlyData LocalTZA ts) ->
  JSObject.get monthKey_eqb (monthsOf LocalTZA ts) (Point.month p)
  = Some (Totals.mk (Point.income p) (Point.expenses p)).
Proof.
  rewrite processMonthlyData_map, in_map_iff. intros ([k [i e]] & <- & I).
  cbn [Point.month Point.income Point.expenses fst snd Totals.income Totals.expenses].
  apply (get_In monthKey_eqb monthKey_eqb_eq); [apply NoDup_monthsOf | exact I].
Qed.

(** The buckets of the series are the months of the list that have a
    transaction, each with the sums of its own transactions. *)
Lemma point_of_series (LocalTZA : Z) (ts : list Transaction) (p : Point.t) :
  In p (processMonthlyData LocalTZA ts)
  <-> existsb (inMonth LocalTZA (Point.month p)) ts = true
      /\ p = Point.mk (Point.month p)
               (amountWhere (fun t => inMonth LocalTZA (Point.month p) t && isIncome t) ts)
               (amountWhere (fun t => inMonth LocalTZA (Point.month p) t && negb (isIncome t))
                            ts).
Proof.
  split.
  - intros I. pose proof (series_points LocalTZA ts p I) as G.
    rewrite get_monthsOf in G.
    destruct (existsb (inMonth LocalTZA (Point.month p)) ts); [| discriminate G].
    split; [reflexivity |].
    apply (f_equal orZero) in G. cbn [orZero] in G.
    pose proof (f_equal Totals.income G) as G1.
    pose proof (f_equal Totals.expenses G) as G2.
    cbn [Totals.income Totals.expenses] in G1, G2.
    rewrite G1, G2. destruct p; reflexivity.
  - intros [X E].
    rewrite processMonthlyData_map, in_map_iff.
    pose proof (get_monthsOf LocalTZA ts (Point.month p)) as G. rewrite X in G.
    exists (Point.month p,
            Totals.mk
              (amountWhere (fun t => inMonth LocalTZA (Point.month p) t && isIncome t) ts)
              (amountWhere (fun t => inMonth LocalTZA (Point.month p) t && negb (isIncome t))
                           ts)).
    cbn [fst snd Totals.income Totals.expenses]. split; [symmetry; exact E |].
    clear E. revert G. generalize (monthsOf LocalTZA ts). intros o.
    induction o as [| [k b] o IH]; cbn [JSObject.get]; [discriminate |].
    destruct (monthKey_eqb k (Point.month p)) eqn:K.
    + apply monthKey_eqb_eq in K. subst k. intros G. left.
      apply (f_equal orZero) in G. cbn [orZero] in G. rewrite G. reflexivity.
    + intros G. right. apply IH, G.
Qed.



Lemma concat_nils {A B : Type} (ks : list A) :
  List.concat (map (fun _ => @nil B) ks) = [].
Proof. induction ks as [| k ks IH]; [reflexivity | exact IH]. Qed.

(** Grouping a list by distinct keys that cover it loses and repeats
    nothing. *)
Lemma groups_Permutation (LocalTZA : Z) (ks : list MonthKey) (ts : list Transaction) :
  NoDup ks ->
  (forall t, In t ts -> In (monthKey LocalTZA t) ks) ->
  Permutation (List.concat (map (fun k => filter (inMonth LocalTZA k) ts) ks)) ts.
Proof.
  intros N. induction ts as [| t ts IH]; intros Cover.
  - cbn [filter]. rewrite concat_nils. constructor.
  - destruct (in_split _ _ (Cover t (or_introl eq_refl))) as (ks1 & ks2 & E).
    assert (Other : forall k, In k (ks1 ++ ks2) -> inMonth LocalTZA k t = false).
    { intros k I. unfold inMonth.
      destruct (monthKey_eqb (monthKey LocalTZA t) k) eqn:X; [| reflexivity].
      apply monthKey_eqb_eq in X. subst k. rewrite E in N.
      apply NoDup_remove_2 in N. contradiction. }
    assert (Same : forall l, (forall k, In k l -> inMonth LocalTZA k t = false) ->
                             map (fun k => filter (inMonth LocalTZA k) (t :: ts)) l
                             = map (fun k => filter (inMonth LocalTZA k) ts) l).
    { intros l H. apply map_ext_in. intros k I. cbn [filter]. rewrite (H k I). reflexivity. }
    specialize (IH (fun x I => Cover x (or_intror I))).
    rewrite E in IH |- *. rewrite map_app, concat_app in IH |- *.
    cbn [map List.concat] in IH |- *.
    rewrite (Same ks1) by (intros k I; apply Other, in_or_app; left; exact I).
    rewrite (Same ks2) by (intros k I; apply Other, in_or_app; right; exact I).
    cbn [filter]. unfold inMonth at 2.
    rewrite (proj2 (monthKey_eqb_eq _ _) eq_refl).
    fold (inMonth LocalTZA (monthKey LocalTZA t)).
    cbn [app]. apply Permutation_sym, Permutation_cons_app, Permutation_sym. exact IH.
Qed.

(** Two numbers an equation says are equal differ under [===]. *)
Local Ltac differ H :=
  match type of H with
  | _ = ?b => apply (f_equal (fun x => strictEquals x b)) in H;
              vm_compute in H; discriminate H
  end.

(** The claim on the monthly series in the words of the specification: both
    fields add up to the totals of the two kinds, and a bucket holds the
    transactions dated in its calendar month. *)
Definition monthly_series_as_stated (LocalTZA : Z) (ts : list Transaction) : Prop :=
  let series := processMonthlyData LocalTZA ts in
  sumLeft (map Point.income series) = amountWhere (hasType "income") ts
  /\ sumLeft (map Point.expenses series) = amountWhere (hasType "expense") ts
  /\ Forall (fun p =>
       Point.income p
       = amountWhere (fun t => inDateMonth (Point.month p) t && hasType "income" t) ts
       /\ Point.expenses p
          = amountWhere (fun t => inDateMonth (Point.month p) t && hasType "expense" t) ts)
       series
  /\ NoDup (map Point.month series)
  /\ (forall k, In k (map Point.month series) <-> exists t, In t ts /\ dateMonth t = k).

(** Incomes of 0.10 in January, 0.40 in February and 0.20 in January. *)
Definition twoMonths : list Transaction :=
  [ tx "income" 10 "Tips" (mkDate 2024 1 5);
    tx "income" 40 "Tips" (mkDate 2024 2 6);
    tx "income" 20 "Tips" (mkDate 2024 1 7) ].

(** C3, counterexample.  The buckets of [twoMonths] hold 0.1 + 0.2 and 0.4,
    which add up to 0.7000000000000001, while the incomes added in the order
    of the list give 0.7: additions round, and the buckets add in another
    order.  A transaction of a third type is added to [expenses], so the
    expenses of the series exceed the sum of the expense amounts.  And three
    hours west of Greenwich a transaction dated on the first of February is
    put in the bucket of January. *)
Lemma monthly_series_as_stated_fails :
  ~ monthly_series_as_stated 0 twoMonths
  /\ ~ monthly_series_as_stated 0 [tx "transfer" 500 "Bank" (mkDate 2024 1 10)]
  /\ ~ monthly_series_as_stated (-10800000) [tx "expense" 5000 "Food" (mkDate 2024 2 1)].
Proof.
  split; [| split].
  - intros (E & _). differ E.
  - intros (_ & E & _). differ E.
  - intros (_ & _ & _ & _ & K).
    destruct (proj1 (K (2024, 1))) as (t & I & E).
    + vm_compute. left. reflexivity.
    + destruct I as [<- | []]. vm_compute in E. discriminate E.
Qed.

(** C3, amended.  A bucket's [income] is the sum of the income numbers of
    the transactions that have its key, and its [expenses] the sum of the
    numbers of those that are not incomes (the expenses when there is no
    third type), each sum taken from 0 in the order of the list with a
    rounded addition per transaction.  There is one bucket per key, and the
    groups of the buckets hold every transaction once.  The key is the year
    and month of the date when the zone is at or east of Greenwich. *)
Theorem monthly_series_sums_by_month_key :
  forall (LocalTZA : Z) (ts : list Transaction),
    let series := processMonthlyData LocalTZA ts in
    Forall (fun p =>
         Point.income p
         = amountWhere (fun t => inMonth LocalTZA (Point.month p) t && hasType "income" t) ts
         /\ Point.expenses p
            = amountWhere
                (fun t => inMonth LocalTZA (Point.month p) t && negb (hasType "income" t)) ts)
         series
    /\ (Forall (fun t => type t = "income" \/ type t = "expense") ts ->
        Forall (fun p =>
          Point.expenses p
          = amountWhere
              (fun t => inMonth LocalTZA (Point.month p) t && hasType "expense" t) ts)
          series)
    /\ NoDup (map Point.month series)
    /\ (forall k, In k (map Point.month series)
                  <-> exists t, In t ts /\ monthKey LocalTZA t = k)
    /\ Permutation
         (List.concat (map (fun p => filter (inMonth LocalTZA (Point.month p)) ts) series)) ts
    /\ (0 <= LocalTZA < msPerDay ->
        forall t, validDate (date t) = true -> monthKey LocalTZA t = dateMonth t).
Proof.
  intros LocalTZA ts series. subst series.
  assert (Fields : forall p,
             In p (processMonthlyData LocalTZA ts) ->
             Point.income p
             = amountWhere
                 (fun t => inMonth LocalTZA (Point.month p) t && hasType "income" t) ts
             /\ Point.expenses p
                = amountWhere
                    (fun t => inMonth LocalTZA (Point.month p) t
                              && negb (hasType "income" t)) ts).
  { intros p I. apply point_of_series in I. destruct I as [_ E].
    pose proof (f_equal Point.income E) as E1.
    pose proof (f_equal Point.expenses E) as E2.
    cbn [Point.income Point.expenses] in E1, E2.
    split; [exact E1 | exact E2]. }
  split; [| split; [| split; [| split; [| split]]]].
  - apply Forall_forall. exact Fields.
  - intros Hk. apply Forall_forall. intros p I.
    rewrite (proj2 (Fields p I)). unfold amountWhere. f_equal.
    apply amountsWhere_ext.
    eapply Forall_impl; [| exact Hk]. intros t [E | E]; unfold hasType; rewrite E;
      reflexivity.
  - rewrite months_of_series. apply NoDup_monthsOf.
  - intros k. rewrite months_of_series. apply In_ownKeys_monthsOf.
  - rewrite <- (map_map Point.month (fun k => filter (inMonth LocalTZA k) ts)).
    rewrite months_of_series. apply groups_Permutation; [apply NoDup_monthsOf |].
    intros t I. apply In_ownKeys_monthsOf. exists t. split; [exact I | reflexivity].
  - intros Hz t Hv. apply monthKey_dateMonth; [exact Hz | exact Hv].
Qed.

Lemma monthly_series_sums_by_month_key_witness :
  Forall (fun p =>
            Point.expenses p
            = amountWhere
                (fun t => inMonth 3600000 (Point.month p) t && hasType "expense" t) sample)
         (processMonthlyData 3600000 sample)
  /\ monthKey 3600000 (tx "income" 100000 "Salary" (mkDate 2024 1 5)) = (2024, 1).
Proof.
  destruct (monthly_series_sums_by_month_key 3600000 sample) as (_ & E & _ & _ & _ & K).
  split.
  - apply E. unfold sample.
    repeat (apply Forall_cons; [cbn [type tx]; auto |]). apply Forall_nil.
  - apply K; [unfold msPerDay; lia | reflexivity].
Defined.





(** ** The highlights: the largest expense *)

Section LargestExpense.







End LargestExpense.

(** ** The highlights: the most used category *)

Section MostUsedCategory.

Import JSObject.

(** How many transactions have the category that reads as key [k]. *)
Fixpoint occurrences (k : string) (ts : list Transaction) : Z :=
  match ts with
  | [] => 0
  | t :: rest =>
      (if String.eqb (categoryKey (category t)) k then 1 else 0) + occurrences k rest
  end.

(** A name every object literal already answers to. *)
Definition inherited (k : string) : bool :=
  match get String.eqb Object_prototype k with Some _ => true | None => false end.

(** The claim on [mostUsedCategory] in the words of the specification. *)
Definition mostUsedCategory_as_stated (ts : list Transaction) : Prop :=
  let r := mostUsedCategory (calculateHighlights ts) in
  (ts = [] -> r = "Nenhuma")
  /\ (ts <> [] ->
      (exists t, In t ts /\ categoryKey (category t) = r)
      /\ forall k, occurrences k ts <= occurrences r ts).

Lemma occurrences_nonneg (k : string) (ts : list Transaction) : 0 <= occurrences k ts.
Proof.
  induction ts as [| t ts IH]; cbn [occurrences]; [lia |].
  destruct (String.eqb (categoryKey (category t)) k); lia.
Qed.

Lemma occurrences_app (k : string) (l1 l2 : list Transaction) :
  occurrences k (l1 ++ l2) = occurrences k l1 + occurrences k l2.
Proof.
  induction l1 as [| t l1 IH]; cbn [app occurrences]; [reflexivity | rewrite IH; lia].
Qed.

Lemma occurrences_pos (k : string) (ts : list Transaction) :
  0 < occurrences k ts <-> exists t, In t ts /\ categoryKey (category t) = k.
Proof.
  induction ts as [| t ts IH]; cbn [occurrences In].
  - split; [lia | intros (t & [] & _)].
  - pose proof (occurrences_nonneg k ts) as P.
    destruct (String.eqb_spec (categoryKey (category t)) k) as [E | N].
    + split; [intros _; exists t; auto | lia].
    + rewrite Z.add_0_l, IH. split.
      * intros (x & I & E). exists x. auto.
      * intros (x & [-> | I] & E); [contradiction | exists x; auto].
Qed.

Lemma string_eqb_eq (a b : string) : String.eqb a b = true <-> a = b.
Proof. apply String.eqb_eq. Qed.

Lemma categoryCountOf_snoc (ts : list Transaction) (t : Transaction) :
  categoryCountOf (ts ++ [t]) = countCategory (categoryCountOf ts) t.
Proof. unfold categoryCountOf. rewrite fold_left_app. reflexivity. Qed.

Lemma not_inherited_not_proto (k : string) :
  inherited k = false -> String.eqb k "__proto__" = false.
Proof.
  intros H. destruct (String.eqb_spec k "__proto__") as [-> |]; [| reflexivity].
  vm_compute in H. discriminate H.
Qed.

(** With no inherited name among the categories, the object holds, for every
    category met, the number of times it was met. *)
Lemma get_categoryCountOf (ts : list Transaction) :
  Forall (fun t => inherited (categoryKey (category t)) = false) ts ->
  forall k,
    get String.eqb (categoryCountOf ts) k
    = if occurrences k ts =? 0 then None else Some (VNumber (Num (occurrences k ts))).
Proof.
  induction ts as [| t ts IH] using rev_ind; intros F k.
  - reflexivity.
  - apply Forall_app in F. destruct F as [F Ft].
    inversion Ft as [| ? ? Hk _]; subst. specialize (IH F).
    set (kt := categoryKey (category t)) in *.
    rewrite categoryCountOf_snoc, occurrences_app. cbn [occurrences].
    fold kt. rewrite Z.add_0_r.
    unfold countCategory. fold kt.
    unfold Set_. rewrite (not_inherited_not_proto kt Hk).
    pose proof (occurrences_nonneg k ts) as P.
    pose proof (occurrences_nonneg kt ts) as Pt.
    assert (G : add (or (Get (categoryCountOf ts) kt) (VNumber (Num 0))) (VNumber (Num 1))
                = VNumber (Num (occurrences kt ts + 1))).
    { unfold Get. rewrite (IH kt). unfold inherited in Hk.
      destruct (Z.eqb_spec (occurrences kt ts) 0) as [Z0 | NZ].
      - destruct (get String.eqb Object_prototype kt); [discriminate Hk |].
        rewrite Z0. reflexivity.
      - unfold or, ToBoolean.
        destruct (Z.eqb_spec (occurrences kt ts) 0); [contradiction | reflexivity]. }
    rewrite G.
    destruct (String.eqb_spec kt k) as [<- | N].
    + rewrite (get_set_same String.eqb string_eqb_eq).
      destruct (Z.eqb_spec (occurrences kt ts + 1) 0); [lia | reflexivity].
    + rewrite (get_set_other String.eqb string_eqb_eq) by exact N.
      rewrite Z.add_0_r. apply IH.
Qed.

(** [Object.keys] lists the own keys, each once, whatever the order. *)
Lemma In_insertIndex (x e : N * string) (l : list (N * string)) :
  In x (insertIndex e l) <-> x = e \/ In x l.
Proof.
  induction l as [| e' l IH]; cbn [insertIndex In].
  - split; intros [H | []]; auto.
  - destruct (fst e <=? fst e')%N; cbn [In]; [split; intros [H | H]; auto |].
    rewrite IH. split; intros H; intuition auto.
Qed.

Lemma In_orderKeys (ks : list string) (k : string) :
  In k (orderKeys ks) <-> In k ks.
Proof.
  unfold orderKeys.
  set (step := fun k acc => match arrayIndex k with
                            | Some n => insertIndex (n, k) acc
                            | None => acc
                            end).
  assert (Ix : forall n, In (n, k) (fold_right step [] ks)
                         <-> In k ks /\ arrayIndex k = Some n).
  { intros n. induction ks as [| a ks IH]; cbn [fold_right In].
    - tauto.
    - unfold step at 1. destruct (arrayIndex a) as [m |] eqn:A.
      + rewrite In_insertIndex, IH. split.
        * intros [[= -> ->] | [I E]]; auto.
        * intros [[-> | I] E]; [left; congruence | right; auto].
      + rewrite IH. split.
        * intros [I E]. auto.
        * intros [[-> | I] E]; [congruence | auto]. }
  rewrite in_app_iff, in_map_iff, filter_In. unfold isIndex. split.
  - intros [([n k'] & E & I) | [I _]]; [| exact I].
    cbn [snd] in E. subst k'. apply Ix in I. tauto.
  - intros I. destruct (arrayIndex k) as [n |] eqn:A.
    + left. exists (n, k). split; [reflexivity | apply Ix; auto].
    + right. auto.
Qed.

(** The reduction over keys whose values are numbers ends on a key of the
    largest value. *)
Lemma fold_most_used (o : list (string * value)) (f : string -> Z)
    (rest : list string) (first : string) :
  (forall k, In k (first :: rest) -> Get o k = VNumber (Num (f k))) ->
  let r := fold_left (fun a b => if gt (Get o a) (Get o b) then a else b) rest first in
  In r (first :: rest) /\ forall k, In k (first :: rest) -> f k <= f r.
Proof.
  revert first. induction rest as [| b rest IH]; intros first H; cbn [fold_left].
  - split; [left; reflexivity | intros k [<- | []]; lia].
  - rewrite (H first (or_introl eq_refl)), (H b (or_intror (or_introl eq_refl))).
    change (gt (VNumber (Num (f first))) (VNumber (Num (f b)))) with (f b <? f first).
    destruct (Z.ltb_spec (f b) (f first)) as [Lt | Ge].
    + destruct (IH first) as [I M].
      { intros k [<- | I]; apply H; [left | right; right]; auto. }
      cbv zeta in *. split.
      * destruct I as [<- | I]; [left | right; right]; auto.
      * intros k [<- | [<- | I']].
        -- apply M. left. reflexivity.
        -- specialize (M first (or_introl eq_refl)). lia.
        -- apply M. right. exact I'.
    + destruct (IH b) as [I M].
      { intros k I. apply H. right. exact I. }
      cbv zeta in *. split.
      * right. exact I.
      * intros k [<- | I'].
        -- specialize (M b (or_introl eq_refl)). lia.
        -- apply M. exact I'.
Qed.

(** With no inherited name among the categories the claim holds: the result
    is a category of the list that no other category occurs more often than,
    and ["Nenhuma"] for the empty list. *)
Lemma mostUsedCategory_most_frequent (ts : list Transaction) :
  Forall (fun t => inherited (categoryKey (category t)) = false) ts ->
  mostUsedCategory_as_stated ts.
Proof.
  intros F. unfold mostUsedCategory_as_stated. cbv zeta. split.
  - intros ->. reflexivity.
  - intros NE. unfold calculateHighlights. cbn [mostUsedCategory]. cbv zeta.
    set (o := categoryCountOf ts).
    assert (Own : forall k, In k (keys o) <-> 0 < occurrences k ts).
    { intros k. unfold keys. rewrite In_orderKeys.
      pose proof (get_None_iff String.eqb string_eqb_eq o k) as G.
      unfold o in G. rewrite (get_categoryCountOf ts F k) in G.
      pose proof (occurrences_nonneg k ts) as P.
      destruct (Z.eqb_spec (occurrences k ts) 0) as [Z0 | NZ].
      - split; [intros I; exfalso; apply (proj1 G eq_refl I) | lia].
      - split; [lia | intros _].
        destruct (in_dec string_dec k (ownKeys (categoryCountOf ts))) as [I | N];
          [exact I | apply G in N; discriminate N]. }
    assert (Val : forall k, In k (keys o) -> Get o k = VNumber (Num (occurrences k ts))).
    { intros k I. apply Own in I. unfold Get, o.
      rewrite (get_categoryCountOf ts F k).
      destruct (Z.eqb_spec (occurrences k ts) 0); [lia | reflexivity]. }
    destruct (keys o) as [| first rest] eqn:K.
    + exfalso. destruct ts as [| t ts]; [apply NE; reflexivity |].
      apply (proj2 (Own (categoryKey (category t)))).
      apply occurrences_pos. exists t. split; [left |]; reflexivity.
    + destruct (fold_most_used o (fun k => occurrences k ts) rest first Val) as [I M].
      cbv zeta in *.
      set (r := fold_left _ rest first) in *.
      split.
      * apply occurrences_pos, Own, I.
      * intros k. pose proof (occurrences_nonneg k ts) as P.
        destruct (Z.eqb_spec (occurrences k ts) 0) as [Z0 | NZ].
        -- rewrite Z0. apply occurrences_nonneg.
        -- apply M, Own. lia.
Qed.

Lemma mostUsedCategory_most_frequent_witness : mostUsedCategory_as_stated sample.
Proof.
  apply mostUsedCategory_most_frequent. unfold sample.
  repeat (apply Forall_cons; [reflexivity |]). apply Forall_nil.
Defined.

Definition income100 (cat : string) : Transaction :=
  tx "income" 100 cat (mkDate 2024 1 5).

(** C5.  A category whose name every object inherits is not counted: two
    incomes from "A" and one from "constructor" give "constructor", which
    occurs once against twice for "A"; a single income from "__proto__" gives
    "Nenhuma" for a list that is not empty.  On both lists the claim fails. *)
Theorem mostUsedCategory_inherited_name :
  let ts := [income100 "A"; income100 "A"; income100 "constructor"] in
  mostUsedCategory (calculateHighlights ts) = "constructor"
  /\ occurrences "constructor" ts = 1
  /\ occurrences "A" ts = 2
  /\ mostUsedCategory (calculateHighlights [income100 "__proto__"]) = "Nenhuma"
  /\ ~ mostUsedCategory_as_stated ts
  /\ ~ mostUsedCategory_as_stated [income100 "__proto__"].
Proof.
  cbv zeta.
  split; [vm_compute; reflexivity |].
  split; [reflexivity |].
  split; [reflexivity |].
  split; [vm_compute; reflexivity |].
  split.
  - intros [_ H]. destruct (H ltac:(discriminate)) as [_ M].
    specialize (M "A"). vm_compute in M. apply M. reflexivity.
  - intros [_ H]. destruct (H ltac:(discriminate)) as [(t & I & E) _].
    destruct I as [<- | []]. vm_compute in E. discriminate E.
Qed.

End MostUsedCategory.

(** ** The filter of the transactions screen *)

(** [l1] is [l2] with some elements left out, the order kept. *)
Inductive Subseq {A : Type} : list A -> list A -> Prop :=
| Subseq_nil : Subseq [] []
| Subseq_keep (a : A) (l1 l2 : list A) : Subseq l1 l2 -> Subseq (a :: l1) (a :: l2)
| Subseq_skip (a : A) (l1 l2 : list A) : Subseq l1 l2 -> Subseq l1 (a :: l2).

Lemma Subseq_refl {A : Type} (l : list A) : Subseq l l.
Proof. induction l; constructor; assumption. Qed.

Lemma Subseq_filter {A : Type} (p : A -> bool) (l : list A) : Subseq (filter p l) l.
Proof.
  induction l as [| a l IH]; cbn [filter]; [constructor |].
  destruct (p a); constructor; exact IH.
Qed.

Lemma filter_all {A : Type} (p : A -> bool) (l : list A) :
  Forall (fun a => p a = true) l -> filter p l = l.
Proof.
  induction 1 as [| a l Pa _ IH]; cbn [filter]; [reflexivity |].
  rewrite Pa, IH. reflexivity.
Qed.

Lemma filter_idempotent {A : Type} (p : A -> bool) (l : list A) :
  filter p (filter p l) = filter p l.
Proof.
  apply filter_all, Forall_forall. intros a I. apply filter_In in I. tauto.
Qed.

Lemma filter_filter {A : Type} (p q : A -> bool) (l : list A) :
  filter q (filter p l) = filter (fun a => p a && q a) l.
Proof.
  induction l as [| a l IH]; cbn [filter]; [reflexivity |].
  destruct (p a); cbn [filter andb]; rewrite IH; reflexivity.
Qed.

Section FilterFacts.

Variable toLowerCase : string -> string.

Abbreviation run := (filterTransactions toLowerCase).

(** The four steps as one test. *)
Definition keeps (f : Filters) (t : Transaction) : bool :=
  (String.eqb (filterType f) "all" || typeMatches f t)
  && (negb (truthy (filterCategory f)) || categoryMatches toLowerCase f t)
  && dateMatches f t
  && (negb (truthy (searchText f)) || searchMatches toLowerCase f t).

Lemma filterTransactions_keeps (ts : list Transaction) (f : Filters) :
  run ts f = filter (keeps f) ts.
Proof.
  unfold filterTransactions, keeps. cbv zeta.
  destruct (String.eqb (filterType f) "all"), (truthy (filterCategory f)),
    (truthy (searchText f)); cbn [negb orb andb];
    rewrite ?filter_filter; apply filter_ext; intros t;
    rewrite ?andb_true_r, <- ?andb_assoc; reflexivity.
Qed.

Lemma truthy_false (s : string) : truthy s = false <-> s = "".
Proof.
  unfold truthy. rewrite negb_false_iff. apply String.eqb_eq.
Qed.

Lemma dateMatches_iff (f : Filters) (t : Transaction) :
  dateMatches f t = true <-> startDate f <= Date_parse (date t) <= endDate f.
Proof. unfold dateMatches. cbv zeta. rewrite andb_true_iff, !Z.leb_le. tauto. Qed.

End FilterFacts.

(** A range that starts two local days or more before a date and ends a local
    day or more after it holds midnight UTC of the date, in any zone. *)
Lemma wide_range_holds_date (LocalTZA start finish : Z) (d : CivilDate) :
  - msPerDay <= LocalTZA <= msPerDay ->
  localDay LocalTZA start + 2 <= days_from_civil d < localDay LocalTZA finish ->
  start <= Date_parse d <= finish.
Proof.
  unfold localDay, Date_parse, msPerDay. intros Hz Hd.
  pose proof (Z.mul_div_le (finish + LocalTZA) 86400000 ltac:(lia)).
  pose proof (Z.mul_succ_div_gt (start + LocalTZA) 86400000 ltac:(lia)).
  lia.
Qed.

Lemma filter_fixed {A : Type} (p : A -> bool) (l : list A) :
  filter p l = l <-> Forall (fun a => p a = true) l.
Proof.
  split; [| apply filter_all].
  intros E. apply Forall_forall. intros a I.
  rewrite <- E in I. apply filter_In in I. exact (proj2 I).
Qed.

(** C6, amended.  The filtered list is the input with some transactions
    left out, in the input's order; it is empty for the empty input; and
    with the type ['all'], no category text and no search text it is the
    input itself exactly when, for every transaction, midnight UTC of its
    date lies between the two bounds as time values.  A range of calendar
    days that is wider than the dates by two days before and one day after
    is enough for that in every zone. *)
Theorem filterTransactions_subsequence_and_identity :
  forall (toLowerCase : string -> string) (transactions : list Transaction)
         (f : Filters),
    Subseq (filterTransactions toLowerCase transactions f) transactions
    /\ filterTransactions toLowerCase [] f = []
    /\ (filterType f = "all" -> filterCategory f = "" -> searchText f = "" ->
        (filterTransactions toLowerCase transactions f = transactions
         <-> Forall (fun t => startDate f <= Date_parse (date t) <= endDate f)
                    transactions))
    /\ (forall LocalTZA,
          - msPerDay <= LocalTZA <= msPerDay ->
          filterType f = "all" -> filterCategory f = "" -> searchText f = "" ->
          Forall (fun t => localDay LocalTZA (startDate f) + 2 <= days_from_civil (date t)
                           /\ days_from_civil (date t) < localDay LocalTZA (endDate f))
                 transactions ->
          filterTransactions toLowerCase transactions f = transactions).
Proof.
  intros toLowerCase transactions f.
  rewrite !filterTransactions_keeps.
  assert (Id : filterType f = "all" -> filterCategory f = "" -> searchText f = "" ->
               (filter (keeps toLowerCase f) transactions = transactions
                <-> Forall (fun t => startDate f <= Date_parse (date t) <= endDate f)
                           transactions)).
  { intros Ha Hc Hs. rewrite filter_fixed, !Forall_forall.
    assert (K : forall t, keeps toLowerCase f t = true
                          <-> startDate f <= Date_parse (date t) <= endDate f).
    { intros t. unfold keeps.
      rewrite Ha, (proj2 (truthy_false _) Hc), (proj2 (truthy_false _) Hs).
      cbn [String.eqb Ascii.eqb Bool.eqb orb negb andb].
      rewrite andb_true_r. apply dateMatches_iff. }
    split; intros H t I; apply K, H, I. }
  split; [apply Subseq_filter | split; [reflexivity | split; [exact Id |]]].
  intros LocalTZA Hz Ha Hc Hs Hd. apply (Id Ha Hc Hs).
  eapply Forall_impl; [| exact Hd]. intros t Ht. cbv beta in Ht.
  apply (wide_range_holds_date LocalTZA); [exact Hz | exact Ht].
Qed.

Definition january2024 : Filters :=
  mkFilters "all" "" (Date_parse (mkDate 2024 1 1)) (Date_parse (mkDate 2024 1 31)) "".

Lemma filterTransactions_subsequence_and_identity_witness :
  filterTransactions toLowerCaseASCII sample january2024 = sample.
Proof.
  destruct (filterTransactions_subsequence_and_identity toLowerCaseASCII sample january2024)
    as (_ & _ & H & _).
  apply (H eq_refl eq_refl eq_refl).
  unfold sample. repeat (apply Forall_cons; [vm_compute; split; discriminate |]).
  apply Forall_nil.
Defined.

(** The second scenario of the specification: expenses of January. *)
Example sample_expenses_of_january :
  filterTransactions toLowerCaseASCII sample
    (mkFilters "expense" "" (Date_parse (mkDate 2024 1 1)) (Date_parse (mkDate 2024 1 31)) "")
  = [ tx "expense" 5000 "Food" (mkDate 2024 1 10);
      tx "expense" 12000 "Rent" (mkDate 2024 1 15) ].
Proof. vm_compute. reflexivity. Qed.

(** C7.  Filtering the filtered list again with the same criteria changes
    nothing. *)
Theorem filterTransactions_idempotent :
  forall (toLowerCase : string -> string) (transactions : list Transaction)
         (f : Filters),
    filterTransactions toLowerCase (filterTransactions toLowerCase transactions f) f
    = filterTransactions toLowerCase transactions f.
Proof.
  intros toLowerCase transactions f.
  rewrite !filterTransactions_keeps. apply filter_idempotent.
Qed.

(** The other three tests of the filter. *)
Definition otherTests (toLowerCase : string -> string) (f : Filters) (t : Transaction)
  : bool :=
  (String.eqb (filterType f) "all" || typeMatches f t)
  && (negb (truthy (filterCategory f)) || categoryMatches toLowerCase f t)
  && (negb (truthy (searchText f)) || searchMatches toLowerCase f t).

(** The claim on the date filter in the words of the specification: dates are
    compared as calendar days, so a transaction dated on the day of [endDate],
    not before the day of [startDate], is kept when the other tests keep
    it. *)
Definition date_filter_as_stated (toLowerCase : string -> string) (LocalTZA : Z)
    (transactions : list Transaction) (f : Filters) : Prop :=
  forall t,
    In t transactions ->
    otherTests toLowerCase f t = true ->
    localDay LocalTZA (startDate f) <= days_from_civil (date t) ->
    date t = localDate LocalTZA (endDate f) ->
    In t (filterTransactions toLowerCase transactions f).

(** Ten in the morning of 1 February 2024, three hours west of Greenwich, as
    the screen opens: [startDate] is local midnight of the first of the
    month, [endDate] is now. *)
Definition firstOfMonthInBrazil : Filters :=
  initialFilters (-3 * 3600000) (Date_parse (mkDate 2024 2 1) + 13 * 3600000).

Example firstOfMonthInBrazil_range :
  firstOfMonthInBrazil
  = mkFilters "all" ""
              (Date_parse (mkDate 2024 2 1) + 3 * 3600000)
              (Date_parse (mkDate 2024 2 1) + 13 * 3600000) "".
Proof. reflexivity. Qed.

(** Eight in the morning of 15 January 2024, nine hours east of Greenwich. *)
Definition morningInJapan : Filters :=
  mkFilters "all" ""
            (Date_parse (mkDate 2024 1 1) - 9 * 3600000)
            (Date_parse (mkDate 2024 1 15) - 1 * 3600000) "".

(** The claim on the identity in the words of the specification: without
    criteria and with a range that covers the dates of the transactions as
    calendar days, the filter returns the input. *)
Definition filter_identity_as_stated (toLowerCase : string -> string) (LocalTZA : Z)
    (transactions : list Transaction) (f : Filters) : Prop :=
  Subseq (filterTransactions toLowerCase transactions f) transactions
  /\ (filterType f = "all" -> filterCategory f = "" -> searchText f = "" ->
      Forall (fun t => localDay LocalTZA (startDate f) <= days_from_civil (date t)
                       /\ days_from_civil (date t) <= localDay LocalTZA (endDate f))
             transactions ->
      filterTransactions toLowerCase transactions f = transactions).

(** C6, counterexample.  Both ranges cover the day of the transaction, and
    the filter without criteria drops it: west of Greenwich the range of the
    first of February starts at local midnight, three hours after midnight
    UTC; east of Greenwich the range ends in the morning of 15 January,
    before midnight UTC of that day. *)
Lemma filter_identity_as_stated_fails :
  ~ filter_identity_as_stated toLowerCaseASCII (-3 * 3600000)
      [tx "expense" 5000 "Food" (mkDate 2024 2 1)] firstOfMonthInBrazil
  /\ ~ filter_identity_as_stated toLowerCaseASCII (9 * 3600000)
         [tx "expense" 5000 "Food" (mkDate 2024 1 15)] morningInJapan.
Proof.
  split; intros [_ H].
  - specialize (H eq_refl eq_refl eq_refl).
    assert (C : filterTransactions toLowerCaseASCII
                  [tx "expense" 5000 "Food" (mkDate 2024 2 1)] firstOfMonthInBrazil
                = [tx "expense" 5000 "Food" (mkDate 2024 2 1)]).
    { apply H. constructor; [| constructor]. vm_compute. split; discriminate. }
    vm_compute in C. discriminate C.
  - specialize (H eq_refl eq_refl eq_refl).
    assert (C : filterTransactions toLowerCaseASCII
                  [tx "expense" 5000 "Food" (mkDate 2024 1 15)] morningInJapan
                = [tx "expense" 5000 "Food" (mkDate 2024 1 15)]).
    { apply H. constructor; [| constructor]. vm_compute. split; discriminate. }
    vm_compute in C. discriminate C.
Qed.

(** C2, counterexample.  The bounds keep their time of day.  West of
    Greenwich the default range of the first of a month leaves out a
    transaction dated that day; east of Greenwich a range that ends in the
    morning of a day leaves out a transaction dated that day. *)
Lemma date_filter_as_stated_fails :
  ~ date_filter_as_stated toLowerCaseASCII (-3 * 3600000)
      [tx "expense" 5000 "Food" (mkDate 2024 2 1)] firstOfMonthInBrazil
  /\ ~ date_filter_as_stated toLowerCaseASCII (9 * 3600000)
         [tx "expense" 5000 "Food" (mkDate 2024 1 15)] morningInJapan.
Proof.
  split; intros H.
  - specialize (H (tx "expense" 5000 "Food" (mkDate 2024 2 1))
                  (or_introl eq_refl) eq_refl).
    vm_compute in H. apply H; [discriminate | reflexivity].
  - specialize (H (tx "expense" 5000 "Food" (mkDate 2024 1 15))
                  (or_introl eq_refl) eq_refl).
    vm_compute in H. apply H; [discriminate | reflexivity].
Qed.

(** C2, amended.  A transaction is kept exactly when it passes the tests on
    type, category and search text that are switched on and the time value
    of its date, midnight UTC, lies between the two bounds as time values.
    At or west of Greenwich a transaction dated on the local day of
    [endDate] passes the upper bound. *)
Theorem date_filter_compares_time_values :
  forall (toLowerCase : string -> string) (transactions : list Transaction)
         (f : Filters) (t : Transaction),
    (In t (filterTransactions toLowerCase transactions f)
     <-> In t transactions
         /\ otherTests toLowerCase f t = true
         /\ startDate f <= Date_parse (date t) <= endDate f)
    /\ forall LocalTZA,
         LocalTZA <= 0 ->
         date t = localDate LocalTZA (endDate f) ->
         Date_parse (date t) <= endDate f.
Proof.
  intros toLowerCase transactions f t. split.
  - rewrite filterTransactions_keeps, filter_In, <- dateMatches_iff.
    unfold keeps, otherTests. rewrite !andb_true_iff. tauto.
  - intros LocalTZA Hz Hd. unfold Date_parse. rewrite Hd. unfold localDate.
    rewrite (proj2 (days_from_civil_from_days _)). unfold localDay.
    pose proof (Z.mul_div_le (endDate f + LocalTZA) msPerDay ltac:(unfold msPerDay; lia)).
    lia.
Qed.

Lemma date_filter_compares_time_values_witness :
  Date_parse (mkDate 2024 2 1) <= endDate firstOfMonthInBrazil.
Proof.
  destruct (date_filter_compares_time_values toLowerCaseASCII []
              firstOfMonthInBrazil (tx "expense" 5000 "Food" (mkDate 2024 2 1)))
    as [_ H].
  apply (H (-3 * 3600000)); [lia | reflexivity].
Defined.

(** ** Seeding the default categories *)

Section Seeding.

Import Auth.

(** The thirteen rows sent to the store for one user. *)
Definition seededRows (userId : string) : list Category :=
  [ mkCategory userId "Alimentação" "expense";
    mkCategory userId "Transporte" "expense";
    mkCategory userId "Moradia" "expense";
    mkCategory userId "Saúde" "expense";
    mkCategory userId "Educação" "expense";
    mkCategory userId "Lazer" "expense";
    mkCategory userId "Compras" "expense";
    mkCategory userId "Outros" "expense";
    mkCategory userId "Salário" "income";
    mkCategory userId "Freelance" "income";
    mkCategory userId "Investimentos" "income";
    mkCategory userId "Presentes" "income";
    mkCategory userId "Outros" "income" ].

Definition seed (outcome : InsertOutcome) (userId : string) (w : World) : World :=
  snd (createDefaultCategories outcome userId w).

Lemma seed_inserted (userId : string) (w : World) :
  categories (seed Inserted userId w) = (categories w ++ seededRows userId)%list.
Proof. reflexivity. Qed.

Lemma seed_failed (outcome : InsertOutcome) (userId : string) (w : World) :
  outcome <> Inserted -> categories (seed outcome userId w) = categories w.
Proof. destruct outcome; [contradiction | reflexivity | reflexivity]. Qed.

(** An answer of the authentication service that carries a new account. *)
Definition accountCreated (newUser : User) : AuthOutcome :=
  Answered (mkResponse (Some (mkData (Some newUser))) None).

(** C8.  One call that the store accepts appends the thirteen default rows
    of the user, eight expenses and five incomes, to the table, whatever the
    table holds; so two calls leave 26 more rows, and 26 rows in a table
    that was empty.  This is what happens when [signUp] seeds a new account
    and the [SIGNED_IN] event arrives within five minutes of its creation. *)
Theorem seeding_twice_gives_26_rows :
  forall (userId : string) (w : World),
    let once := seed Inserted userId w in
    let twice := seed Inserted userId once in
    categories once = (categories w ++ seededRows userId)%list
    /\ categories twice = (categories w ++ seededRows userId ++ seededRows userId)%list
    /\ List.length (seededRows userId) = 13%nat
    /\ List.length (filter (fun c => String.eqb (type c) "expense") (seededRows userId)) = 8%nat
    /\ List.length (filter (fun c => String.eqb (type c) "income") (seededRows userId)) = 5%nat
    /\ List.length (categories twice) = (List.length (categories w) + 26)%nat
    /\ (categories w = [] -> List.length (categories twice) = 26%nat)
    /\ forall (newUser : User) (now : Z),
         id newUser = userId ->
         now - created_at newUser < 5 * 60000 ->
         categories
           (snd (onAuthStateChange now Inserted "SIGNED_IN" (Some newUser)
                   (snd (signUp (accountCreated newUser) Inserted w))))
         = (categories w ++ seededRows userId ++ seededRows userId)%list.
Proof.
  intros userId w once twice. subst once twice.
  assert (E2 : categories (seed Inserted userId (seed Inserted userId w))
               = (categories w ++ seededRows userId ++ seededRows userId)%list).
  { rewrite !seed_inserted, <- app_assoc. reflexivity. }
  split; [apply seed_inserted |].
  split; [exact E2 |].
  split; [reflexivity |].
  split; [reflexivity |].
  split; [reflexivity |].
  split; [rewrite E2, length_app; reflexivity |].
  split; [intros E; rewrite E2, E; reflexivity |].
  intros newUser now <- Hnew.
  unfold onAuthStateChange, bind. cbn [String.eqb Ascii.eqb Bool.eqb].
  assert (L : (now - created_at newUser <? 5 * (1000 * 60)) = true)
    by (apply Z.ltb_lt; lia).
  rewrite L. cbn. rewrite <- app_assoc. reflexivity.
Qed.

Lemma seeding_twice_gives_26_rows_witness :
  List.length (categories (seed Inserted "user1" (seed Inserted "user1" (mkWorld [] [] None true))))
  = 26%nat.
Proof.
  destruct (seeding_twice_gives_26_rows "user1" (mkWorld [] [] None true))
    as (_ & _ & _ & _ & _ & _ & H & _).
  apply H. reflexivity.
Defined.

(** The claim on a failed seeding in the words of the specification: the
    error reaches the caller, it is logged, and [signUp] answers the same
    whatever the seeding did. *)
Definition seeding_failure_as_stated : Prop :=
  forall (outcome : InsertOutcome) (e userId : string) (w : World),
    outcome = InsertError e \/ outcome = InsertThrows e ->
    (fst (createDefaultCategories outcome userId w) = Returns (Reported e)
     \/ fst (createDefaultCategories outcome userId w) = Throws e)
    /\ (exists m, In (LogError m e) (console (seed outcome userId w)))
    /\ forall auth seeding, fst (signUp auth outcome w) = fst (signUp auth seeding w).

(** C9, counterexample.  The caller of a seeding that failed gets
    [undefined], as the caller of one that succeeded does. *)
Lemma seeding_failure_as_stated_fails : ~ seeding_failure_as_stated.
Proof.
  intros H.
  destruct (H (InsertError "network") "network" "user1" (mkWorld [] [] None false)
              (or_introl eq_refl)) as [[R | R] _]; discriminate R.
Qed.

(** C9, amended.  Every call of [createDefaultCategories] ends with
    [undefined], whatever the store did.  When the insert fails the error is
    written to the console and the table is left as it was.  What [signUp]
    returns does not depend on the seeding: it is the [data] and [error] of
    the authentication service. *)
Theorem seeding_failure_is_logged_not_reported :
  forall (outcome : InsertOutcome) (userId : string) (w : World),
    fst (createDefaultCategories outcome userId w) = Returns Undefined
    /\ (forall e, outcome = InsertError e \/ outcome = InsertThrows e ->
          (exists m, In (LogError m e) (console (seed outcome userId w)))
          /\ categories (seed outcome userId w) = categories w)
    /\ (forall auth seeding, fst (signUp auth outcome w) = fst (signUp auth seeding w))
    /\ (forall d e, fst (signUp (Answered (mkResponse (Some d) e)) outcome w)
                    = Returns (mkResponse (Some d) e)).
Proof.
  intros outcome userId w.
  split; [destruct outcome; reflexivity |].
  split.
  { intros e [-> | ->]; (split; [| reflexivity]); eexists; cbn;
      rewrite in_app_iff; right; left; reflexivity. }
  split.
  - intros auth seeding.
    destruct auth as [[[[[u |]] |] [err |]] | err];
      destruct outcome, seeding; reflexivity.
  - intros [[u |]] [err |]; destruct outcome; reflexivity.
Qed.

Lemma seeding_failure_is_logged_not_reported_witness :
  exists m, In (LogError m "network")
               (console (seed (InsertError "network") "user1" (mkWorld [] [] None false))).
Proof.
  destruct (seeding_failure_is_logged_not_reported
              (InsertError "network") "user1" (mkWorld [] [] None false))
    as (_ & H & _).
  destruct (H "network" (or_introl eq_refl)) as [L _]. exact L.
Defined.

End Seeding.

(** ** The provider's other operations *)

Section ProviderFacts.

Import Auth.

(** The table and the console after an operation hold what they held, then
    what the operation added. *)
Definition grows (w w' : World) : Prop :=
  (exists rows, categories w' = (categories w ++ rows)%list)
  /\ (exists lines, console w' = (console w ++ lines)%list).

Local Ltac appended :=
  first [ exists []; cbn; rewrite app_nil_r; reflexivity
        | eexists; cbn; rewrite <- ?app_assoc; reflexivity ].
Local Ltac appended_both := split; appended.

Lemma createDefaultCategories_returns (outcome : InsertOutcome) (userId : string)
    (w : World) :
  createDefaultCategories outcome userId w = (Returns Undefined, seed outcome userId w).
Proof. destruct outcome; reflexivity. Qed.

Lemma seed_keeps_session (outcome : InsertOutcome) (userId : string) (w : World) :
  user (seed outcome userId w) = user w /\ loading (seed outcome userId w) = loading w.
Proof. destruct outcome; split; reflexivity. Qed.

(** The table [signUp] leaves: seeded for the new account when the service
    answered with a user and no error, untouched in every other case. *)
Definition afterSignUp (auth : AuthOutcome) (seeding : InsertOutcome) (w : World)
  : list Category :=
  match auth with
  | Answered (mkResponse (Some (mkData (Some newUser))) None) =>
      categories (seed seeding (id newUser) w)
  | _ => categories w
  end.

(** What the caller of [signUp] or [signIn] gets for an answer of the
    service. *)
Definition answerOf (auth : AuthOutcome) : Response :=
  match auth with
  | Answered r => r
  | AuthThrows e => mkResponse None (Some e)
  end.

(** What [signIn] logs: the line of its [catch] when the service threw. *)
Definition signInLog (auth : AuthOutcome) : list LogLine :=
  match auth with
  | Answered _ => []
  | AuthThrows e => [LogError "Erro no signIn:" e]
  end.

(** [signUp], [signIn] and [signOut] never end with an exception and always
    leave [loading] false.  An exception of the service is logged by the
    [catch] of the call, that line and no other, and comes back as the
    [error] of the result, with [data] null for [signUp] and [signIn], the
    table left as it was.  Without an exception [signIn] returns the answer
    of the service as it is and logs nothing, [signUp] returns the answer of
    the service when its [data] is not null, and [signOut] returns the
    service's [error] and logs nothing.  [signIn] and [signOut] never change
    the table. *)
Theorem auth_calls_return_and_clear_loading :
  forall w : World,
    (forall auth seeding,
        exists r w',
          signUp auth seeding w = (Returns r, w') /\ loading w' = false
          /\ (forall e, auth = AuthThrows e ->
                r = mkResponse None (Some e)
                /\ categories w' = categories w
                /\ console w' = (console w ++ [LogError "Erro no signUp:" e])%list)
          /\ (forall d err, auth = Answered (mkResponse (Some d) err) ->
                r = mkResponse (Some d) err))
    /\ (forall auth,
          exists w', signIn auth w = (Returns (answerOf auth), w')
                     /\ loading w' = false /\ categories w' = categories w
                     /\ console w' = (console w ++ signInLog auth)%list)
    /\ (forall e,
          exists w', signOut (SignOutThrows e) w = (Returns (Some e), w')
                     /\ loading w' = false /\ categories w' = categories w
                     /\ console w' = (console w ++ [LogError "Erro no signOut:" e])%list)
    /\ (forall e,
          exists w', signOut (SignedOut e) w = (Returns e, w')
                     /\ loading w' = false /\ categories w' = categories w
                     /\ console w' = console w).
Proof.
  intros w. split; [| split; [| split]].
  - intros auth seeding.
    destruct auth as [[d err] | thrown].
    + destruct d as [[[u |]] |], err as [err |], seeding;
        do 2 eexists;
        (split; [reflexivity | split; [reflexivity | split;
           [ intros e E; discriminate E
           | intros d' err' E;
             first [discriminate E | injection E as <- <-; reflexivity] ]]]).
    + do 2 eexists. split; [reflexivity | split; [reflexivity | split]].
      * intros e E. injection E as <-. repeat split.
      * intros d' err' E. discriminate E.
  - intros [[d err] | err]; eexists;
      (split; [reflexivity | split; [reflexivity | split; [reflexivity |]]]);
      cbn [signInLog console]; rewrite ?app_nil_r; reflexivity.
  - intros e. eexists. split; [reflexivity |]. cbn. repeat split.
  - intros e. eexists. split; [reflexivity |]. cbn. repeat split.
Qed.

(** [signUp] seeds exactly when the service answered with a user and no
    error; then it seeds for that user's id. *)
Theorem signUp_seeds_only_for_a_new_account :
  forall (auth : AuthOutcome) (seeding : InsertOutcome) (w : World),
    categories (snd (signUp auth seeding w)) = afterSignUp auth seeding w
    /\ (afterSignUp auth seeding w <> categories w ->
        seeding = Inserted
        /\ exists newUser, auth = Answered (mkResponse (Some (mkData (Some newUser))) None)).
Proof.
  intros auth seeding w. split.
  - destruct auth as [[[[[u |]] |] [err |]] | err]; destruct seeding; reflexivity.
  - destruct auth as [[[[[u |]] |] [err |]] | err]; cbn [afterSignUp];
      try (intros N; exfalso; apply N; reflexivity).
    intros N. destruct seeding;
      [ split; [reflexivity | exists u; reflexivity]
      | exfalso; apply N; reflexivity
      | exfalso; apply N; reflexivity ].
Qed.

(** The handler seeds on [SIGNED_IN] with a session whose account is less
    than five minutes old on the device's clock, and only then; whatever the
    event, the provider's user becomes the session's and [loading] false. *)
Theorem onAuthStateChange_seeds_only_young_accounts :
  forall (now : Z) (seeding : InsertOutcome) (event : string)
         (session : option User) (w : World),
    let w' := snd (onAuthStateChange now seeding event session w) in
    fst (onAuthStateChange now seeding event session w) = Returns tt
    /\ user w' = session /\ loading w' = false
    /\ categories w'
       = match session with
         | Some sessionUser =>
             if String.eqb event "SIGNED_IN"
                && (now - created_at sessionUser <? 300000)
             then categories (seed seeding (id sessionUser) w)
             else categories w
         | None => categories w
         end
    /\ (forall sessionUser,
          session = Some sessionUser ->
          300000 <= now - created_at sessionUser ->
          categories w' = categories w).
Proof.
  intros now seeding event session w w'. subst w'.
  assert (Main :
    fst (onAuthStateChange now seeding event session w) = Returns tt
    /\ user (snd (onAuthStateChange now seeding event session w)) = session
    /\ loading (snd (onAuthStateChange now seeding event session w)) = false
    /\ categories (snd (onAuthStateChange now seeding event session w))
       = match session with
         | Some sessionUser =>
             if String.eqb event "SIGNED_IN"
                && (now - created_at sessionUser <? 300000)
             then categories (seed seeding (id sessionUser) w)
             else categories w
         | None => categories w
         end).
  { unfold onAuthStateChange, bind.
    destruct session as [u |]; [| repeat split].
    destruct (String.eqb event "SIGNED_IN"); [| repeat split].
    change (5 * (1000 * 60)) with 300000.
    destruct (now - created_at u <? 300000); [| repeat split].
    destruct seeding; repeat split. }
  destruct Main as (R & U & L & C). repeat split; try assumption.
  intros u -> Old. rewrite C.
  destruct (Z.ltb_spec (now - created_at u) 300000); [lia |].
  rewrite andb_false_r. reflexivity.
Qed.

Lemma onAuthStateChange_seeds_only_young_accounts_witness :
  categories
    (snd (onAuthStateChange 1000000 Inserted "SIGNED_IN" (Some (mkUser "user1" 0))
            (mkWorld [] [] None true)))
  = [].
Proof.
  destruct (onAuthStateChange_seeds_only_young_accounts
              1000000 Inserted "SIGNED_IN" (Some (mkUser "user1" 0))
              (mkWorld [] [] None true)) as (_ & _ & _ & _ & H).
  apply (H (mkUser "user1" 0)); [reflexivity | cbn; lia].
Defined.

(** Seeding through [createCategoriesForExistingUser], [n] times. *)
Fixpoint seedExisting (n : nat) (w : World) : World :=
  match n with
  | O => w
  | S n' => snd (createCategoriesForExistingUser Inserted (seedExisting n' w))
  end.

Fixpoint copies {A : Type} (n : nat) (l : list A) : list A :=
  match n with
  | O => []
  | S n' => (copies n' l ++ l)%list
  end.

(** With a user signed in, [n] accepted calls of
    [createCategoriesForExistingUser] append [n] copies of the thirteen rows:
    [13 * n] rows more, none of them merged with an earlier one.  With no
    user, a call changes nothing. *)
Theorem seeding_n_times_appends_n_copies :
  forall (n : nat) (w : World) (u : User),
    user w = Some u ->
    categories (seedExisting n w)
    = (categories w ++ copies n (seededRows (id u)))%list
    /\ List.length (categories (seedExisting n w))
       = (List.length (categories w) + 13 * n)%nat
    /\ forall seeding w0,
         user w0 = None ->
         createCategoriesForExistingUser seeding w0 = (Returns tt, w0).
Proof.
  intros n w u Hu.
  assert (Inv : user (seedExisting n w) = Some u
                /\ categories (seedExisting n w)
                   = (categories w ++ copies n (seededRows (id u)))%list).
  { induction n as [| n [IHu IHc]]; cbn [seedExisting copies].
    - split; [exact Hu | rewrite app_nil_r; reflexivity].
    - unfold createCategoriesForExistingUser. rewrite IHu.
      unfold bind. rewrite createDefaultCategories_returns. cbn [snd ret].
      split.
      + rewrite (proj1 (seed_keeps_session _ _ _)). exact IHu.
      + rewrite seed_inserted, IHc, <- app_assoc. reflexivity. }
  destruct Inv as [_ C]. split; [exact C | split].
  - rewrite C, length_app. f_equal. clear.
    induction n as [| n IH]; cbn [copies]; [reflexivity |].
    rewrite length_app, IH. cbn [List.length seededRows]. lia.
  - intros seeding w0 H0. unfold createCategoriesForExistingUser. rewrite H0.
    reflexivity.
Qed.

Lemma seeding_n_times_appends_n_copies_witness :
  List.length (categories (seedExisting 3 (mkWorld [] [] (Some (mkUser "user1" 0)) false)))
  = 39%nat.
Proof.
  destruct (seeding_n_times_appends_n_copies
              3 (mkWorld [] [] (Some (mkUser "user1" 0)) false) (mkUser "user1" 0)
              eq_refl) as (_ & L & _).
  exact L.
Defined.

(** No operation of the provider removes or rewrites a row of the table or a
    line of the console: what was there stays, in place, before what is
    added. *)
Theorem provider_only_appends :
  forall w : World,
    (forall outcome userId, grows w (snd (createDefaultCategories outcome userId w)))
    /\ (forall auth seeding, grows w (snd (signUp auth seeding w)))
    /\ (forall auth, grows w (snd (signIn auth w)))
    /\ (forall outcome, grows w (snd (signOut outcome w)))
    /\ (forall seeding, grows w (snd (createCategoriesForExistingUser seeding w)))
    /\ (forall now seeding event session,
          grows w (snd (onAuthStateChange now seeding event session w)))
    /\ (forall session, grows w (snd (getSession session w))).
Proof.
  intros w.
  split; [| split; [| split; [| split; [| split; [| split]]]]].
  - intros outcome userId. destruct outcome; appended_both.
  - intros auth seeding.
    destruct auth as [[[[[u |]] |] [err |]] | err]; destruct seeding; appended_both.
  - intros auth. destruct auth as [[d err] | err]; appended_both.
  - intros outcome. destruct outcome; appended_both.
  - intros seeding. unfold createCategoriesForExistingUser.
    destruct (user w) as [u |]; [destruct seeding |]; appended_both.
  - intros now seeding event session. unfold onAuthStateChange, bind.
    destruct session as [u |]; [| appended_both].
    destruct (String.eqb event "SIGNED_IN"); [| appended_both].
    destruct (now - created_at u <? 5 * (1000 * 60)); [| appended_both].
    destruct seeding; appended_both.
  - intros session. appended_both.
Qed.

End ProviderFacts.

(** ** The order of the buckets *)

Section DashboardFacts.

Import JSObject.

(** The distinct elements of a list, each at the place of its first
    occurrence. *)
Fixpoint firstOccurrences (l : list MonthKey) : list MonthKey :=
  match l with
  | [] => []
  | k :: rest =>
      k :: filter (fun k' => negb (monthKey_eqb k k')) (firstOccurrences rest)
  end.

Lemma In_firstOccurrences (l : list MonthKey) (k : MonthKey) :
  In k (firstOccurrences l) <-> In k l.
Proof.
  induction l as [| a l IH]; cbn [firstOccurrences In]; [tauto |].
  rewrite filter_In, IH, negb_true_iff.
  destruct (monthKey_eqb a k) eqn:E.
  - apply monthKey_eqb_eq in E. intuition congruence.
  - assert (a <> k) by (intros C; apply monthKey_eqb_eq in C; congruence).
    intuition congruence.
Qed.

Lemma firstOccurrences_snoc (l : list MonthKey) (k : MonthKey) :
  firstOccurrences (l ++ [k])
  = if existsb (monthKey_eqb k) l then firstOccurrences l
    else (firstOccurrences l ++ [k])%list.
Proof.
  induction l as [| a l IH]; cbn [app firstOccurrences existsb]; [reflexivity |].
  rewrite IH.
  destruct (monthKey_eqb k a) eqn:E; cbn [orb].
  - apply monthKey_eqb_eq in E. subst a.
    destruct (existsb (monthKey_eqb k) l); [reflexivity |].
    rewrite filter_app. cbn [filter].
    rewrite (proj2 (monthKey_eqb_eq k k) eq_refl). cbn [negb].
    rewrite app_nil_r. reflexivity.
  - destruct (existsb (monthKey_eqb k) l); [reflexivity |].
    rewrite filter_app. cbn [filter].
    assert (E' : monthKey_eqb a k = false).
    { destruct (monthKey_eqb a k) eqn:X; [| reflexivity].
      apply monthKey_eqb_eq in X. subst a.
      rewrite (proj2 (monthKey_eqb_eq k k) eq_refl) in E. discriminate E. }
    rewrite E'. reflexivity.
Qed.

(** The buckets of the series come in the order in which their months first
    occur in the input; nothing sorts them. *)
Theorem series_in_order_of_first_occurrence :
  forall (LocalTZA : Z) (ts : list Transaction),
    map Point.month (processMonthlyData LocalTZA ts)
    = firstOccurrences (map (monthKey LocalTZA) ts).
Proof.
  intros LocalTZA ts. rewrite months_of_series.
  induction ts as [| t ts IH] using rev_ind; [reflexivity |].
  rewrite monthsOf_snoc, ownKeys_addTransaction, map_app. cbn [map].
  rewrite firstOccurrences_snoc, get_monthsOf, IH.
  assert (E : existsb (inMonth LocalTZA (monthKey LocalTZA t)) ts
              = existsb (monthKey_eqb (monthKey LocalTZA t)) (map (monthKey LocalTZA) ts)).
  { clear. induction ts as [| a ts IH]; cbn [existsb map]; [reflexivity |].
    rewrite IH. f_equal. unfold inMonth.
    destruct (monthKey_eqb (monthKey LocalTZA a) (monthKey LocalTZA t)) eqn:X.
    - apply monthKey_eqb_eq in X. rewrite X. symmetry. apply monthKey_eqb_eq. reflexivity.
    - symmetry. destruct (monthKey_eqb (monthKey LocalTZA t) (monthKey LocalTZA a)) eqn:Y;
        [| reflexivity].
      apply monthKey_eqb_eq in Y. rewrite Y in X.
      rewrite (proj2 (monthKey_eqb_eq _ _) eq_refl) in X. discriminate X. }
  rewrite <- E.
  destruct (existsb (inMonth LocalTZA (monthKey LocalTZA t)) ts); reflexivity.
Qed.

End DashboardFacts.

(** ** More on the filter *)

Section MoreFilterFacts.

Variable toLowerCase : string -> string.

Abbreviation run := (filterTransactions toLowerCase).

Lemma Subseq_filter_weaker {A : Type} (p q : A -> bool) (l : list A) :
  (forall a, p a = true -> q a = true) -> Subseq (filter p l) (filter q l).
Proof.
  intros W. induction l as [| a l IH]; cbn [filter]; [constructor |].
  destruct (p a) eqn:Pa.
  - rewrite (W a Pa). constructor. exact IH.
  - destruct (q a); [constructor |]; exact IH.
Qed.

(** Moving [startDate] back and [endDate] forward only adds transactions:
    the list before is the new list with some cards left out. *)
Theorem wider_range_shows_more :
  forall (transactions : list Transaction) (f : Filters) (start finish : Z),
    start <= startDate f -> endDate f <= finish ->
    Subseq (run transactions f)
           (run transactions (setEndDate finish (setStartDate start f))).
Proof.
  intros ts f start finish Hs He. rewrite !filterTransactions_keeps.
  apply Subseq_filter_weaker. intros t. unfold keeps.
  rewrite !andb_true_iff, !dateMatches_iff. cbn [setEndDate setStartDate startDate endDate
    filterType filterCategory searchText].
  unfold typeMatches, categoryMatches, searchMatches.
  cbn [setEndDate setStartDate startDate endDate filterType filterCategory searchText].
  intros [[[A B] C] D]. repeat split; try assumption; lia.
Qed.

(** Two sets of criteria applied one after the other give the same list in
    either order: the transactions of the input that both keep. *)
Theorem filters_commute :
  forall (transactions : list Transaction) (f g : Filters),
    run (run transactions f) g = run (run transactions g) f
    /\ forall t, In t (run (run transactions f) g)
                 <-> In t (run transactions f) /\ In t (run transactions g).
Proof.
  intros ts f g. rewrite !filterTransactions_keeps, !filter_filter. split.
  - apply filter_ext. intros t. apply andb_comm.
  - intros t. rewrite !filter_In, andb_true_iff. tauto.
Qed.

(** Choosing a type after the other criteria is choosing it first:
    the list for a type is the list for ['all'] with the other types left
    out.  When every transaction is an income or an expense, the list for
    ['all'] has as many cards as the two other lists together. *)
Theorem type_filter_splits_the_list :
  forall (transactions : list Transaction) (f : Filters) (k : string),
    filterType f = "all" -> k <> "all" ->
    run transactions (setFilterType k f)
    = filter (fun t => String.eqb (type t) k) (run transactions f)
    /\ (Forall (fun t => type t = "income" \/ type t = "expense") transactions ->
        List.length (run transactions f)
        = (List.length (run transactions (setFilterType "income" f))
           + List.length (run transactions (setFilterType "expense" f)))%nat).
Proof.
  intros ts f k Ha Hk.
  assert (One : forall k', k' <> "all" ->
            run ts (setFilterType k' f)
            = filter (fun t => String.eqb (type t) k') (run ts f)).
  { intros k' Hk'. rewrite !filterTransactions_keeps, filter_filter.
    apply filter_ext. intros t. unfold keeps, typeMatches, categoryMatches, searchMatches,
      dateMatches.
    cbn [setFilterType filterType filterCategory startDate endDate searchText].
    rewrite Ha. cbn [String.eqb Ascii.eqb Bool.eqb orb andb].
    destruct (String.eqb_spec k' "all") as [E | _]; [contradiction |].
    cbn [orb].
    destruct (String.eqb (type t) k'); cbn [andb]; [| rewrite andb_false_r; reflexivity].
    rewrite andb_true_r. reflexivity. }
  split; [apply One, Hk |].
  intros Hty. rewrite !One by discriminate.
  assert (F : Forall (fun t => type t = "income" \/ type t = "expense") (run ts f)).
  { apply Forall_forall. intros t I. rewrite filterTransactions_keeps in I.
    apply filter_In in I. rewrite Forall_forall in Hty. apply Hty, I. }
  clear One. set (l := run ts f) in *. clearbody l.
  induction F as [| t l [E | E] _ IH]; cbn [filter List.length]; [reflexivity | |];
    rewrite E; simpl; rewrite IH; lia.
Qed.

(** The search and the category filter are blind to what [toLowerCase]
    folds: two search texts, or two category texts, with the same lower-case
    form give the same list. *)
Theorem search_is_case_blind :
  forall (transactions : list Transaction) (f : Filters) (q1 q2 : string),
    toLowerCase q1 = toLowerCase q2 -> q1 <> "" -> q2 <> "" ->
    run transactions (setSearchText q1 f) = run transactions (setSearchText q2 f)
    /\ run transactions (setFilterCategory q1 f)
       = run transactions (setFilterCategory q2 f).
Proof.
  intros ts f q1 q2 E N1 N2.
  assert (T1 : truthy q1 = true).
  { destruct (truthy q1) eqn:X; [reflexivity |]. apply truthy_false in X. contradiction. }
  assert (T2 : truthy q2 = true).
  { destruct (truthy q2) eqn:X; [reflexivity |]. apply truthy_false in X. contradiction. }
  rewrite !filterTransactions_keeps.
  split; apply filter_ext; intros t;
    unfold keeps, typeMatches, categoryMatches, searchMatches, dateMatches;
    cbn [setSearchText setFilterCategory filterType filterCategory startDate endDate
         searchText];
    rewrite ?T1, ?T2, E; reflexivity.
Qed.

End MoreFilterFacts.

Lemma wider_range_shows_more_witness :
  Subseq (filterTransactions toLowerCaseASCII sample
            (mkFilters "all" "" (Date_parse (mkDate 2024 1 6)) (Date_parse (mkDate 2024 1 12)) ""))
         (filterTransactions toLowerCaseASCII sample january2024).
Proof.
  apply (wider_range_shows_more toLowerCaseASCII sample
           (mkFilters "all" "" (Date_parse (mkDate 2024 1 6)) (Date_parse (mkDate 2024 1 12)) "")
           (Date_parse (mkDate 2024 1 1)) (Date_parse (mkDate 2024 1 31)));
    vm_compute; discriminate.
Defined.

Lemma type_filter_splits_the_list_witness :
  filterTransactions toLowerCaseASCII sample (setFilterType "expense" january2024)
  = filter (fun t => String.eqb (type t) "expense")
           (filterTransactions toLowerCaseASCII sample january2024).
Proof.
  destruct (type_filter_splits_the_list toLowerCaseASCII sample january2024 "expense"
              eq_refl ltac:(discriminate)) as [H _].
  exact H.
Defined.


Lemma search_is_case_blind_witness :
  filterTransactions toLowerCaseASCII sample (setSearchText "RENT" january2024)
  = filterTransactions toLowerCaseASCII sample (setSearchText "rent" january2024).
Proof.
  destruct (search_is_case_blind toLowerCaseASCII sample january2024 "RENT" "rent"
              eq_refl ltac:(discriminate) ltac:(discriminate)) as [H _].
  exact H.
Defined.

(** ** The date of an entry, from the form to the list *)

Section EntryDates.

Import Entry.

Local Ltac by_division := unfold msPerDay in *; Z.div_mod_to_equations; lia.

Lemma Date_parse_isoDate (t : Z) : Date_parse (isoDate t) = t / msPerDay * msPerDay.
Proof.
  unfold Date_parse, isoDate. rewrite (proj2 (days_from_civil_from_days _)). reflexivity.
Qed.

(** A transaction saved with the day [isoDate] makes of the moment picked in
    the form is shown, in the list, on the local day of that moment or on the
    day before, never later.  East of Greenwich it is the same day unless the
    moment is so early in the local day that UTC is still on the day before;
    west of Greenwich it is the day before unless the moment is so late that
    UTC is already on the next day. *)
Theorem saved_day_is_shown_a_day_early :
  forall (LocalTZA picked : Z) (item : Transaction),
    date item = isoDate picked ->
    - msPerDay <= LocalTZA < msPerDay ->
    let shown := days_from_civil (shownDate LocalTZA item) in
    let formDay := localDay LocalTZA picked in
    (shown = formDay \/ shown = formDay - 1)
    /\ (shownDate LocalTZA item = localDate LocalTZA picked <-> shown = formDay)
    /\ (0 <= LocalTZA ->
        (shown = formDay <-> picked mod msPerDay + LocalTZA < msPerDay))
    /\ (LocalTZA < 0 ->
        (shown = formDay <-> picked mod msPerDay + LocalTZA < 0)).
Proof.
  intros LocalTZA picked item Hd Hz shown formDay. subst shown formDay.
  unfold shownDate, localDate. rewrite (proj2 (days_from_civil_from_days _)).
  rewrite Hd, Date_parse_isoDate.
  split; [| split; [| split]].
  - unfold localDay. by_division.
  - split; [intros E; apply civil_from_days_inj in E; exact E | intros ->; reflexivity].
  - intros P. unfold localDay. by_division.
  - intros N. unfold localDay. by_division.
Qed.

Lemma saved_day_is_shown_a_day_early_witness :
  days_from_civil
    (shownDate (-3 * 3600000)
       (tx "expense" 5000 "Food" (isoDate (Date_parse (mkDate 2024 2 10) + 13 * 3600000))))
  = localDay (-3 * 3600000) (Date_parse (mkDate 2024 2 10) + 13 * 3600000) - 1.
Proof.
  destruct (saved_day_is_shown_a_day_early (-3 * 3600000)
              (Date_parse (mkDate 2024 2 10) + 13 * 3600000)
              (tx "expense" 5000 "Food"
                  (isoDate (Date_parse (mkDate 2024 2 10) + 13 * 3600000)))
              eq_refl ltac:(unfold msPerDay; lia)) as ([E | E] & _ & _ & W).
  - exfalso. apply W in E; [| lia]. vm_compute in E. discriminate E.
  - exact E.
Defined.

(** The first of the month of a date is as many days before it as its day of
    the month says. *)
Lemma first_of_month (d : CivilDate) :
  days_from_civil (mkDate (year d) (month d) 1) = days_from_civil d - (day d - 1).
Proof. unfold days_from_civil, doe_of. cbn [year month day]. lia. Qed.

Lemma days_of_localDate (LocalTZA t : Z) :
  days_from_civil (localDate LocalTZA t) = localDay LocalTZA t.
Proof. unfold localDate. apply days_from_civil_from_days. Qed.

Lemma initialFilters_start (LocalTZA now : Z) :
  startDate (initialFilters LocalTZA now)
  = (localDay LocalTZA now - (day (localDate LocalTZA now) - 1)) * msPerDay - LocalTZA
  /\ 1 <= day (localDate LocalTZA now).
Proof.
  unfold initialFilters. cbv zeta. cbn [startDate]. unfold getFullYear, getMonth.
  replace (month (localDate LocalTZA now) - 1 + 1) with (month (localDate LocalTZA now))
    by lia.
  rewrite first_of_month, days_of_localDate.
  split; [reflexivity |].
  pose proof (proj1 (days_from_civil_from_days (localDay LocalTZA now))) as V.
  unfold validDate in V. fold (localDate LocalTZA now) in V.
  rewrite !andb_true_iff, !Z.leb_le in V. lia.
Qed.

Lemma initial_list (toLowerCase : string -> string) (LocalTZA now : Z)
    (transactions : list Transaction) (t : Transaction) :
  In t (filterTransactions toLowerCase transactions (initialFilters LocalTZA now))
  <-> In t transactions
      /\ startDate (initialFilters LocalTZA now) <= Date_parse (date t) <= now.
Proof.
  rewrite filterTransactions_keeps, filter_In. unfold keeps.
  rewrite !andb_true_iff, dateMatches_iff.
  unfold initialFilters at 1 2 5. cbv zeta.
  cbn [filterType filterCategory searchText endDate].
  cbn [String.eqb Ascii.eqb Bool.eqb truthy negb orb]. unfold truthy. cbn. tauto.
Qed.

(** The list as the screen opens, at moment [now]: it shows the transactions
    dated from the first of the current local month to the current day in
    UTC.  West of Greenwich the first of the month itself is left out. *)
Theorem initial_list_in_days :
  forall (toLowerCase : string -> string) (LocalTZA now : Z)
         (transactions : list Transaction) (t : Transaction),
    let firstOfMonth := localDay LocalTZA now - (day (localDate LocalTZA now) - 1) in
    let shown := In t (filterTransactions toLowerCase transactions
                         (initialFilters LocalTZA now)) in
    (0 <= LocalTZA < msPerDay ->
     (shown <-> In t transactions
                /\ firstOfMonth <= days_from_civil (date t) <= now / msPerDay))
    /\ (- msPerDay <= LocalTZA < 0 ->
        (shown <-> In t transactions
                   /\ firstOfMonth < days_from_civil (date t) <= now / msPerDay)).
Proof.
  intros toLowerCase LocalTZA now ts t firstOfMonth shown. subst firstOfMonth shown.
  rewrite initial_list. destruct (initialFilters_start LocalTZA now) as [-> _].
  unfold Date_parse.
  set (F := localDay LocalTZA now - (day (localDate LocalTZA now) - 1)).
  set (D := days_from_civil (date t)). clearbody F D.
  split; intros Hz; (split; intros [I R]; (split; [exact I |])); by_division.
Qed.

Lemma initial_list_in_days_witness :
  ~ In (tx "expense" 5000 "Food" (mkDate 2024 2 1))
       (filterTransactions toLowerCaseASCII [tx "expense" 5000 "Food" (mkDate 2024 2 1)]
          (initialFilters (-3 * 3600000) (Date_parse (mkDate 2024 2 1) + 13 * 3600000))).
Proof.
  destruct (initial_list_in_days toLowerCaseASCII (-3 * 3600000)
              (Date_parse (mkDate 2024 2 1) + 13 * 3600000)
              [tx "expense" 5000 "Food" (mkDate 2024 2 1)]
              (tx "expense" 5000 "Food" (mkDate 2024 2 1))) as [_ W].
  cbv zeta in W. specialize (W ltac:(unfold msPerDay; lia)).
  intros I. destruct (proj1 W I) as [_ [L _]].
  vm_compute in L. discriminate L.
Defined.

(** A transaction saved at moment [now] with the form's date left at [now],
    and the list opened at that moment.  East of Greenwich the list shows it
    unless it is the first local day of a month and UTC is still on the day
    before; west of Greenwich it shows it unless it is the first local day
    of a month and UTC is on that same day. *)
Theorem new_entry_in_the_initial_list :
  forall (toLowerCase : string -> string) (LocalTZA now : Z)
         (transactions : list Transaction) (item : Transaction),
    date item = isoDate now ->
    In item transactions ->
    let shown := In item (filterTransactions toLowerCase transactions
                            (initialFilters LocalTZA now)) in
    let firstDay := day (localDate LocalTZA now) = 1 in
    (0 <= LocalTZA < msPerDay ->
     (shown <-> ~ (firstDay /\ localDay LocalTZA now = now / msPerDay + 1)))
    /\ (- msPerDay <= LocalTZA < 0 ->
        (shown <-> ~ (firstDay /\ localDay LocalTZA now = now / msPerDay))).
Proof.
  intros toLowerCase LocalTZA now ts item Hd Hin shown firstDay. subst shown firstDay.
  rewrite initial_list. destruct (initialFilters_start LocalTZA now) as [-> D1].
  rewrite Hd, Date_parse_isoDate. unfold localDay in *.
  set (dd := day (localDate LocalTZA now)) in *. clearbody dd.
  split; intros Hz; split.
  - intros [_ R] [E1 E2]. by_division.
  - intros N. split; [exact Hin |].
    assert (C : dd <> 1 \/ (now + LocalTZA) / msPerDay <> now / msPerDay + 1)
      by (destruct (Z.eq_dec dd 1); [right; intros E; apply N; split; assumption | left; assumption]).
    clear N. by_division.
  - intros [_ R] [E1 E2]. by_division.
  - intros N. split; [exact Hin |].
    assert (C : dd <> 1 \/ (now + LocalTZA) / msPerDay <> now / msPerDay)
      by (destruct (Z.eq_dec dd 1); [right; intros E; apply N; split; assumption | left; assumption]).
    clear N. by_division.
Qed.

Lemma new_entry_in_the_initial_list_witness :
  ~ In (tx "expense" 5000 "Food" (isoDate (Date_parse (mkDate 2024 2 1) + 13 * 3600000)))
       (filterTransactions toLowerCaseASCII
          [tx "expense" 5000 "Food" (isoDate (Date_parse (mkDate 2024 2 1) + 13 * 3600000))]
          (initialFilters (-3 * 3600000) (Date_parse (mkDate 2024 2 1) + 13 * 3600000))).
Proof.
  destruct (new_entry_in_the_initial_list toLowerCaseASCII (-3 * 3600000)
              (Date_parse (mkDate 2024 2 1) + 13 * 3600000)
              [tx "expense" 5000 "Food" (isoDate (Date_parse (mkDate 2024 2 1) + 13 * 3600000))]
              (tx "expense" 5000 "Food" (isoDate (Date_parse (mkDate 2024 2 1) + 13 * 3600000)))
              eq_refl (or_introl eq_refl)) as [_ W].
  cbv zeta in W. specialize (W ltac:(unfold msPerDay; lia)).
  intros I. apply (proj1 W I).
  split; vm_compute; reflexivity.
Defined.

End EntryDates.

(** ** The account forms *)

Section AccountFacts.

Import Screen Auth Account.

Variable strLength : string -> Z.

(** What the register form asks of its three fields. *)
Definition registrable (email password confirmPassword : string) : Prop :=
  email <> "" /\ password <> "" /\ confirmPassword <> ""
  /\ password = confirmPassword /\ 6 <= strLength password.

Lemma truthy_true (s : string) : truthy s = true <-> s <> "".
Proof.
  unfold truthy. rewrite negb_true_iff. split.
  - intros E C. subst s. discriminate E.
  - intros N. destruct (String.eqb_spec s ""); [contradiction | reflexivity].
Qed.

Lemma registrable_dec (email password confirmPassword : string) :
  {registrable email password confirmPassword}
  + {~ registrable email password confirmPassword}.
Proof.
  unfold registrable.
  destruct (string_dec email "") as [-> | Ne]; [right; tauto |].
  destruct (string_dec password "") as [-> | Np]; [right; tauto |].
  destruct (string_dec confirmPassword "") as [-> | Nc]; [right; tauto |].
  destruct (string_dec password confirmPassword) as [Eq | Nq]; [| right; tauto].
  destruct (Z_le_dec 6 (strLength password)) as [Len | Short]; [left | right]; tauto.
Qed.

Lemma handleRegister_valid (auth : AuthOutcome) (seeding : InsertOutcome)
    (email password confirmPassword : string) (loadingBefore : bool) (w : World) :
  registrable email password confirmPassword ->
  handleRegister strLength auth seeding email password confirmPassword loadingBefore w
  = match signUp auth seeding w with
    | (Returns result, w') =>
        match error result with
        | Some message =>
            mkRun [CallSignUp email password]
                  [Alert "Erro" (messageOr "Não foi possível criar a conta" message)]
                  false w'
        | None =>
            mkRun [CallSignUp email password]
                  [Alert "Sucesso" "Conta criada com sucesso! Faça login.";
                   Navigate "Login"]
                  false w'
        end
    | (Throws _, w') => mkRun [CallSignUp email password] [] true w'
    end.
Proof.
  intros (Ne & Np & Nc & Eq & Len). unfold handleRegister.
  rewrite (proj2 (truthy_true _) Ne), (proj2 (truthy_true _) Np),
    (proj2 (truthy_true _) Nc).
  cbn [negb orb]. rewrite <- Eq, String.eqb_refl. cbn [negb].
  destruct (Z.ltb_spec (strLength password) 6); [lia | reflexivity].
Qed.

Lemma handleRegister_invalid (auth : AuthOutcome) (seeding : InsertOutcome)
    (email password confirmPassword : string) (loadingBefore : bool) (w : World) :
  ~ registrable email password confirmPassword ->
  exists message,
    handleRegister strLength auth seeding email password confirmPassword loadingBefore w
    = mkRun [] [Alert "Erro" message] loadingBefore w.
Proof.
  intros N. unfold handleRegister.
  destruct (truthy email) eqn:Te; [| eexists; reflexivity].
  destruct (truthy password) eqn:Tp; [| eexists; reflexivity].
  destruct (truthy confirmPassword) eqn:Tc; [| eexists; reflexivity].
  cbn [negb orb].
  destruct (String.eqb_spec password confirmPassword) as [Eq | Nq];
    [| eexists; reflexivity].
  cbn [negb].
  destruct (Z.ltb_spec (strLength password) 6) as [Short | Long];
    [eexists; reflexivity |].
  exfalso. apply N. unfold registrable.
  apply truthy_true in Te, Tp, Tc. tauto.
Qed.

Lemma signUp_error_free (auth : AuthOutcome) (seeding : InsertOutcome) (w : World) :
  exists result w',
    signUp auth seeding w = (Returns result, w')
    /\ Auth.loading w' = false
    /\ (error result = None <-> exists d, auth = Answered (mkResponse (Some d) None)).
Proof.
  destruct auth as [[[[[u |]] |] [err |]] | err]; destruct seeding;
    do 2 eexists; (split; [reflexivity | split; [reflexivity |]]); cbn [error];
    (split;
     [ intros E; first [discriminate E | eexists; reflexivity]
     | intros [d E]; first [reflexivity | discriminate E] ]).
Qed.

(** The register form calls [signUp] exactly when the three fields are
    filled, the two passwords are the same text and the password has six
    characters or more; otherwise it shows one error, calls nothing and
    leaves the provider and its own [loading] as they were.  It goes to the
    login screen exactly when it called [signUp] and the service answered
    without an error; after a call, [loading] is false in the form and in the
    provider. *)
Theorem handleRegister_calls_signUp_when_valid :
  forall (auth : AuthOutcome) (seeding : InsertOutcome)
         (email password confirmPassword : string) (loadingBefore : bool) (w : World),
    let r := handleRegister strLength auth seeding email password confirmPassword
                            loadingBefore w in
    (calls r = [CallSignUp email password]
     <-> registrable email password confirmPassword)
    /\ (~ registrable email password confirmPassword ->
        calls r = [] /\ world r = w /\ loading r = loadingBefore
        /\ exists message, effects r = [Alert "Erro" message])
    /\ (In (Navigate "Login") (effects r)
        <-> registrable email password confirmPassword
            /\ exists d, auth = Answered (mkResponse (Some d) None))
    /\ (registrable email password confirmPassword ->
        loading r = false /\ Auth.loading (world r) = false
        /\ exists title message, hd_error (effects r) = Some (Alert title message)).
Proof.
  intros auth seeding email password confirmPassword loadingBefore w r. subst r.
  destruct (registrable_dec email password confirmPassword) as [V | N].
  - rewrite (handleRegister_valid auth seeding _ _ _ loadingBefore w V).
    destruct (signUp_error_free auth seeding w) as (result & w' & -> & L & Free).
    destruct (error result) as [message |] eqn:Er; cbn [calls world loading effects In].
    + split; [tauto |]. split; [tauto |]. split.
      * split; [intros [[=] | []] |].
        intros [_ X]. apply Free in X. discriminate X.
      * intros _. split; [reflexivity | split; [exact L |]]. do 2 eexists. reflexivity.
    + split; [tauto |]. split; [tauto |]. split.
      * split; [intros _; split; [exact V | apply Free; reflexivity] |].
        intros _. right. left. reflexivity.
      * intros _. split; [reflexivity | split; [exact L |]]. do 2 eexists. reflexivity.
  - destruct (handleRegister_invalid auth seeding _ _ _ loadingBefore w N) as [m ->].
    cbn [calls world loading effects In].
    split; [split; [discriminate | contradiction] |].
    split; [intros _; repeat split; exists m; reflexivity |].
    split; [split; [intros [[=] | []] | intros [V _]; contradiction] |].
    intros V. contradiction.
Qed.



End AccountFacts.

(** ** The expense and income forms *)

Section EntryForms.

Import Screen Entry.

Definition isSeparator (c : ascii) : bool := Ascii.eqb c "," || Ascii.eqb c ".".

Fixpoint count (p : ascii -> bool) (s : string) : nat :=
  match s with
  | EmptyString => 0%nat
  | String c rest => ((if p c then 1 else 0) + count p rest)%nat
  end.

Fixpoint every (p : ascii -> bool) (s : string) : bool :=
  match s with
  | EmptyString => true
  | String c rest => p c && every p rest
  end.

Lemma amountChar_cases (c : ascii) :
  isAmountChar c = true ->
  (JSObject.isDigit c = true /\ Ascii.eqb c "," = false /\ Ascii.eqb c "." = false)
  \/ c = ","%char \/ c = "."%char.
Proof.
  destruct c as [[] [] [] [] [] [] [] []]; vm_compute; intros H;
    first [discriminate H | left; repeat split; reflexivity
          | right; left; reflexivity | right; right; reflexivity].
Qed.

Lemma every_keepAmountChars (text : string) :
  every isAmountChar (keepAmountChars text) = true.
Proof.
  induction text as [| c rest IH]; [reflexivity |].
  cbn [keepAmountChars]. destruct (isAmountChar c) eqn:A; [| exact IH].
  cbn [every]. rewrite A, IH. reflexivity.
Qed.

Lemma allDigits_replaceFirst (s : string) :
  allDigits (replaceFirst "," "." s) = allDigits s.
Proof.
  induction s as [| c rest IH]; [reflexivity |].
  cbn [replaceFirst]. destruct (Ascii.eqb_spec c ","%char) as [-> | N].
  - reflexivity.
  - cbn [allDigits]. rewrite IH. reflexivity.
Qed.

Lemma replaceFirst_empty (s : string) :
  String.eqb (replaceFirst "," "." s) "" = String.eqb s "".
Proof.
  destruct s as [| c rest]; [reflexivity |].
  cbn [replaceFirst]. destruct (Ascii.eqb c ","); reflexivity.
Qed.

Lemma allDigits_separators (s : string) :
  every isAmountChar s = true ->
  allDigits s = (count isSeparator s =? 0)%nat.
Proof.
  induction s as [| c rest IH]; [reflexivity |].
  cbn [every allDigits count]. intros [A E]%andb_true_iff.
  destruct (amountChar_cases c A) as [(D & C & P) | [-> | ->]].
  - unfold isSeparator. rewrite D, C, P. cbn [orb andb Nat.add]. exact (IH E).
  - reflexivity.
  - reflexivity.
Qed.

Lemma allDigits_nonempty (s : string) :
  allDigits s = true ->
  negb (String.eqb s "") = (1 <=? count JSObject.isDigit s)%nat.
Proof.
  destruct s as [| c rest]; [reflexivity |].
  cbn [allDigits count]. intros [D _]%andb_true_iff. rewrite D. reflexivity.
Qed.

Definition digitsAroundDot (s : string) : bool :=
  match splitAtDot s with
  | (a, None) => allDigits a
  | (a, Some b) => allDigits a && allDigits b
  end.

Lemma digitsAroundDot_separators (s : string) :
  every isAmountChar s = true ->
  digitsAroundDot (replaceFirst "," "." s) = (count isSeparator s <=? 1)%nat.
Proof.
  induction s as [| c rest IH]; [reflexivity |].
  cbn [every count]. intros [A E]%andb_true_iff.
  destruct (amountChar_cases c A) as [(D & C & P) | [-> | ->]].
  - unfold isSeparator at 1. cbn [replaceFirst]. rewrite C, P. cbn [orb Nat.add].
    rewrite <- (IH E). unfold digitsAroundDot. cbn [splitAtDot]. rewrite P.
    destruct (splitAtDot (replaceFirst "," "." rest)) as [a [b |]];
      cbn [allDigits]; rewrite D; reflexivity.
  - unfold digitsAroundDot. cbn. rewrite (allDigits_separators rest E).
    destruct (count isSeparator rest); reflexivity.
  - unfold digitsAroundDot. cbn [replaceFirst splitAtDot].
    change (Ascii.eqb "." ",") with false. change (Ascii.eqb "." ".") with true.
    cbn [splitAtDot allDigits andb]. change (Ascii.eqb "." ".") with true. cbn iota.
    cbn [allDigits andb].
    rewrite allDigits_replaceFirst, (allDigits_separators rest E).
    change (isSeparator ".") with true. cbn iota.
    destruct (count isSeparator rest); reflexivity.
Qed.


Lemma isDecimalLiteral_counts (s : string) :
  every isAmountChar s = true ->
  isDecimalLiteral (replaceFirst "," "." s)
  = ((count isSeparator s <=? 1) && (1 <=? count JSObject.isDigit s))%nat.
Proof.
  destruct s as [| c rest]; [reflexivity |].
  cbn [every count]. intros [A E]%andb_true_iff.
  destruct (amountChar_cases c A) as [(D & C & P) | [-> | ->]].
  - unfold isSeparator at 1. rewrite C, P, D. cbn [orb Nat.add Nat.leb].
    rewrite andb_true_r, <- (digitsAroundDot_separators rest E).
    unfold isDecimalLiteral, digitsAroundDot. cbn [replaceFirst].
    rewrite C. cbn [splitAtDot]. rewrite P.
    destruct (splitAtDot (replaceFirst "," "." rest)) as [a [b |]];
      cbn [allDigits String.eqb andb negb]; rewrite D, ?andb_true_r; reflexivity.
  - unfold isDecimalLiteral. cbn [replaceFirst]. change (Ascii.eqb "," ",") with true.
    cbn iota. cbn [splitAtDot]. change (Ascii.eqb "." ".") with true. cbn iota.
    change (isSeparator ",") with true. change (JSObject.isDigit ",") with false.
    cbn iota. cbn [allDigits andb String.eqb Nat.add].
    destruct (allDigits rest) eqn:R.
    + rewrite (allDigits_nonempty rest R).
      rewrite (allDigits_separators rest E) in R. apply Nat.eqb_eq in R. rewrite R.
      reflexivity.
    + rewrite (allDigits_separators rest E) in R. apply Nat.eqb_neq in R.
      destruct (count isSeparator rest); [contradiction | reflexivity].
  - unfold isDecimalLiteral. cbn [replaceFirst]. change (Ascii.eqb "." ",") with false.
    cbn iota. cbn [splitAtDot]. change (Ascii.eqb "." ".") with true. cbn iota.
    change (isSeparator ".") with true. change (JSObject.isDigit ".") with false.
    cbn iota. cbn [allDigits andb String.eqb Nat.add].
    rewrite allDigits_replaceFirst, replaceFirst_empty.
    destruct (allDigits rest) eqn:R.
    + rewrite (allDigits_nonempty rest R).
      rewrite (allDigits_separators rest E) in R. apply Nat.eqb_eq in R. rewrite R.
      reflexivity.
    + rewrite (allDigits_separators rest E) in R. apply Nat.eqb_neq in R.
      destruct (count isSeparator rest); [contradiction | reflexivity].
Qed.

(** The text is one the field takes: empty, or digits with at most one comma
    or dot and at least one digit. *)
Definition accepted (s : string) : bool :=
  String.eqb s ""
  || ((count isSeparator s <=? 1) && (1 <=? count JSObject.isDigit s))%nat.

Lemma amount_test_is_accepted (s : string) :
  every isAmountChar s = true ->
  String.eqb (replaceFirst "," "." s) "" || negb (isNaN (replaceFirst "," "." s))
  = accepted s.
Proof.
  intros E. unfold accepted, isNaN.
  rewrite replaceFirst_empty, negb_involutive, (isDecimalLiteral_counts s E).
  destruct (String.eqb s ""); reflexivity.
Qed.


(** Whatever the field reports, in any number of changes from the initial
    empty value, [amount] holds only digits, commas and dots, with at most
    one comma or dot; when it is not empty, what [handleSubmit] gives to
    [parseFloat], [amount.replace(',', '.')], is a decimal literal. *)
Theorem amount_field_holds_a_decimal_literal :
  forall texts : list string,
    let amount := fold_left handleAmountChange texts "" in
    every isAmountChar amount = true
    /\ (count isSeparator amount <= 1)%nat
    /\ (amount <> "" -> isDecimalLiteral (replaceFirst "," "." amount) = true).
Proof.
  intros texts amount.
  assert (I : every isAmountChar amount = true /\ accepted amount = true).
  { subst amount.
    assert (Start : every isAmountChar "" = true /\ accepted "" = true)
      by (split; reflexivity).
    revert Start. generalize "". induction texts as [| text rest IH];
      intros start Start; [exact Start |].
    cbn [fold_left]. apply IH. unfold handleAmountChange. cbv zeta.
    rewrite (amount_test_is_accepted _ (every_keepAmountChars text)).
    destruct (accepted (keepAmountChars text)) eqn:A; [| exact Start].
    split; [apply every_keepAmountChars | exact A]. }
  destruct I as [E A]. unfold accepted in A.
  split; [exact E |]. split.
  - destruct (String.eqb_spec amount "") as [-> | N]; [cbn; lia |].
    cbn [orb] in A. apply andb_true_iff in A. destruct A as [A _].
    apply Nat.leb_le in A. exact A.
  - intros N. rewrite (isDecimalLiteral_counts amount E).
    destruct (String.eqb_spec amount "") as [-> | _]; [contradiction | exact A].
Qed.

(** The expense form always has categories to pick from: the rows the store
    answers with when there are some, and in every other case (an error, an
    exception, [null] or no row) the eight names of the file, each its own
    id, which are the names the provider seeds as expense categories. *)
Theorem loadCategories_never_empty :
  forall (answer : CategoriesAnswer) (userId : string),
    let shown := fst (loadCategories answer) in
    shown <> []
    /\ (forall data, answer = Rows (Some data) -> data <> [] -> shown = data)
    /\ ((forall data, answer = Rows (Some data) -> data = []) ->
        map option_name shown
        = map Auth.name
            (filter (fun c => String.eqb (Auth.type c) "expense") (seededRows userId))
        /\ map option_id shown = map option_name shown).
Proof.
  intros answer userId shown. subst shown.
  destruct answer as [[[| row rows] |] | e | e]; cbn [loadCategories fst].
  all: split; [discriminate |].
  all: split;
    [ intros data [= <-] N; first [reflexivity | contradiction]
    | intros Empty; first [split; reflexivity | discriminate (Empty _ eq_refl)] ].
Qed.

End EntryForms.

Section SubmitFacts.

Import Screen Entry.

Variable Number : Type.
Variable parseFloat : string -> Number.
Variable numberIsNaN : Number -> bool.
Variable leZero : Number -> bool.

Abbreviation submitExpense' := (submitExpense Number parseFloat numberIsNaN leZero).
Abbreviation submitIncome' := (submitIncome Number parseFloat numberIsNaN leZero).

(** What both forms do with the row, once the fields passed the tests. *)
Definition afterInsert (answer : InsertAnswer) (r : Submitted Number) : Prop :=
  loading r = false
  /\ (answer = Stored -> exists message, effects r = [Alert "Sucesso" message; GoBack])
  /\ (answer <> Stored ->
      exists message logged, effects r = [Alert "Erro" message; ConsoleError logged]).

(** Each form asks the store for an insert exactly when its three fields are
    filled and the parsed amount is a number greater than zero.  The row it
    sends holds that amount, the user's id, the form's own type and the UTC
    day of the chosen date; the income form writes the source as the
    category and no receipt.  Without a request the form shows one error and
    leaves [loading] as it was; with one it ends with [loading] false, and
    goes back exactly when the store took the row. *)
Theorem forms_send_only_positive_amounts :
  forall (answer : InsertAnswer) (userId amount description category : string)
         (date : Z) (receipt : option string) (loadingBefore : bool),
    let parsedE := parseFloat (replaceFirst "," "." amount) in
    let parsedI := parseFloat amount in
    let e := submitExpense' answer userId amount description category date receipt
                            loadingBefore in
    let i := submitIncome' answer userId amount description category date
                           loadingBefore in
    (request e
     = (if truthy amount && truthy description && truthy category
           && negb (numberIsNaN parsedE) && negb (leZero parsedE)
        then Some (mkNew userId "expense" parsedE description category
                         (isoDate date) receipt)
        else None))
    /\ (request i
        = (if truthy amount && truthy description && truthy category
              && negb (numberIsNaN parsedI) && negb (leZero parsedI)
           then Some (mkNew userId "income" parsedI description category
                            (isoDate date) None)
           else None))
    /\ (forall r, r = e \/ r = i ->
        (request r = None ->
         loading r = loadingBefore /\ exists message, effects r = [Alert "Erro" message])
        /\ (request r <> None -> afterInsert answer r)
        /\ (In GoBack (effects r) <-> request r <> None /\ answer = Stored)).
Proof.
  intros answer userId amount description category date receipt loadingBefore
    parsedE parsedI e i.
  subst e i parsedE parsedI. unfold submitExpense, submitIncome, afterInsert.
  destruct (truthy amount), (truthy description), (truthy category);
    cbn [negb orb andb].
  2-8: split; [reflexivity |]; split; [reflexivity |];
       intros r [-> | ->]; cbn [request loading effects In];
       (split; [intros _; split; [reflexivity | eexists; reflexivity] |]);
       (split; [intros N; contradiction |]);
       (split; [intros [[=] | []] | intros [N _]; contradiction]).
  cbv zeta.
  split.
  { destruct (numberIsNaN (parseFloat (replaceFirst "," "." amount))),
      (leZero (parseFloat (replaceFirst "," "." amount))), answer; reflexivity. }
  split.
  { destruct (numberIsNaN (parseFloat amount)), (leZero (parseFloat amount)), answer;
      reflexivity. }
  intros r [-> | ->].
  - destruct (numberIsNaN (parseFloat (replaceFirst "," "." amount))),
      (leZero (parseFloat (replaceFirst "," "." amount)));
      cbn [negb orb andb request loading effects In].
    1-3: (split; [intros _; split; [reflexivity | eexists; reflexivity] |]);
         (split; [intros N; contradiction |]);
         (split; [intros [[=] | []] | intros [N _]; contradiction]).
    destruct answer; cbn [request loading effects In].
    all: split; [discriminate |].
    all: split;
      [ intros _; split; [reflexivity |];
        split; [ intros A; first [discriminate A | eexists; reflexivity]
               | intros A; first [contradiction | do 2 eexists; reflexivity] ] |].
    all: split;
      [ intros [[=] | [[=] | []]]; first [split; [discriminate | reflexivity]]
      | intros [_ A]; first [discriminate A | right; left; reflexivity] ].
  - destruct (numberIsNaN (parseFloat amount)), (leZero (parseFloat amount));
      cbn [negb orb andb request loading effects In].
    1-3: (split; [intros _; split; [reflexivity | eexists; reflexivity] |]);
         (split; [intros N; contradiction |]);
         (split; [intros [[=] | []] | intros [N _]; contradiction]).
    destruct answer; cbn [request loading effects In].
    all: split; [discriminate |].
    all: split;
      [ intros _; split; [reflexivity |];
        split; [ intros A; first [discriminate A | eexists; reflexivity]
               | intros A; first [contradiction | do 2 eexists; reflexivity] ] |].
    all: split;
      [ intros [[=] | [[=] | []]]; first [split; [discriminate | reflexivity]]
      | intros [_ A]; first [discriminate A | right; left; reflexivity] ].
Qed.

End SubmitFacts.
